(** * lfpod: feed polling, keyword filtering, artifact store and feed synthesis

    A shallow embedding of [lfpod.go].  Go strings are modelled as [string],
    nilable slices and pointers as [option], the process state (files, log,
    external invocations) as an explicit world threaded through a small
    monad whose outcomes are a normal return, [log.Fatal] or a panic.
    Library functions are parameters ([Lib]); the network, the file
    system's faults and the external tools answer through an oracle
    ([Outside]) that may answer differently at every call.  The sweep
    ([doUpdate]) and the request handler ([feedGetHandler]) are each run
    on their own, as sequential programs. *)

From Stdlib Require Import Strings.String Strings.Ascii NArith DecimalString.
From stdpp Require Import base option list gmap strings.

Local Open Scope string_scope.

(* stdpp blocks the unfolding of string concatenation; the proofs below
   compute with it. *)
#[local] Arguments String.append !_ _ / : simpl nomatch.

(** ** Go's [strings] package, on byte strings *)

Module GoStrings.

(** [strings.HasPrefix s prefix]. *)
Fixpoint HasPrefix (s prefix : string) {struct prefix} : bool :=
  match prefix, s with
  | EmptyString, _ => true
  | String _ _, EmptyString => false
  | String b prefix', String a s' => Ascii.eqb a b && HasPrefix s' prefix'
  end.

(** [strings.Contains s substr], that is [strings.Index s substr >= 0]:
    some position of [s] starts an occurrence of [substr]. *)
Fixpoint Contains (s substr : string) : bool :=
  HasPrefix s substr ||
  match s with
  | EmptyString => false
  | String _ s' => Contains s' substr
  end.

(** [strings.Join elems sep]. *)
Fixpoint Join (elems : list string) (sep : string) : string :=
  match elems with
  | [] => ""
  | [e] => e
  | e :: rest => e ++ sep ++ Join rest sep
  end.

(** The ASCII path of [strings.ToLower]: on a string of ASCII bytes Go
    maps ['A'..'Z'] to ['a'..'z'] and leaves every other byte alone. *)
Definition lowerByte (a : ascii) : ascii :=
  let n := N_of_ascii a in
  if (65 <=? n)%N && (n <=? 90)%N then ascii_of_N (n + 32) else a.

Fixpoint asciiToLower (s : string) : string :=
  match s with
  | EmptyString => EmptyString
  | String a s' => String (lowerByte a) (asciiToLower s')
  end.

End GoStrings.

(** ** The feed document (lines 27-43) *)

Record YtMedia := { Description : string }.

Record YtEntry := {
  Title : string;
  VideoId : string;
  Published : string;
  Media : option YtMedia   (* [*YtMedia], nil when the entry has no media group *)
}.

Record YtFeed := { Entries : list YtEntry }.

#[global] Instance YtMedia_eq_dec : EqDecision YtMedia.
Proof. solve_decision. Defined.
#[global] Instance YtEntry_eq_dec : EqDecision YtEntry.
Proof. solve_decision. Defined.
#[global] Instance YtFeed_eq_dec : EqDecision YtFeed.
Proof. solve_decision. Defined.

(** ** Keyword filtering, the loops of [parseFeed] (lines 77-87) *)

Section Filtering.

(** [strings.ToLower] is Unicode aware; the development is parametric in
    it and instantiates it with [GoStrings.asciiToLower] on ASCII data. *)
Variable ToLower : string -> string.

(** The inner [for _, k := range keywords]: the first keyword contained
    in the title appends the entry to [acc] and breaks; without a match
    the loop runs out and [acc] is unchanged. *)
Fixpoint keywordLoop (entry : YtEntry) (keywords : list string)
    (acc : list YtEntry) : list YtEntry :=
  match keywords with
  | [] => acc
  | k :: keywords' =>
      let tl := ToLower (Title entry) in
      let kl := ToLower k in
      if GoStrings.Contains tl kl then acc ++ [entry]
      else keywordLoop entry keywords' acc
  end.

(** The outer [for _, entry := range ytfeed.Entries], threading
    [f.Entries]. *)
Fixpoint entryLoop (entries : list YtEntry) (keywords : list string)
    (acc : list YtEntry) : list YtEntry :=
  match entries with
  | [] => acc
  | entry :: entries' =>
      entryLoop entries' keywords (keywordLoop entry keywords acc)
  end.

(** Lines 74-87: a nil keyword slice returns the parsed feed itself,
    any other slice (the empty one included) runs the loops from an
    empty feed. *)
Definition filterFeed (ytfeed : YtFeed) (keywords : option (list string)) : YtFeed :=
  match keywords with
  | None => ytfeed
  | Some ks => {| Entries := entryLoop (Entries ytfeed) ks [] |}
  end.

(** The specification's words: the title contains the keyword as a
    substring once both are lower-cased. *)
Definition ci_substring (keyword title : string) : Prop :=
  exists pre post, ToLower title = pre ++ ToLower keyword ++ post.


Definition title_matches (keywords : list string) (entry : YtEntry) : Prop :=
  exists k, k ∈ keywords /\ ci_substring k (Title entry).

Definition matchesb (keywords : list string) (entry : YtEntry) : bool :=
  existsb (fun k => GoStrings.Contains (ToLower (Title entry)) (ToLower k)) keywords.

End Filtering.

(** ** Go's [path/filepath] on Unix: lexical path cleaning *)

Module GoPath.

Definition Separator : ascii := "/"%char.

(** The path elements between separators; ["a//b"] has the empty
    element in the middle. *)
Fixpoint elements (path : string) : list string :=
  match path with
  | EmptyString => [EmptyString]
  | String a path' =>
      if Ascii.eqb a Separator then EmptyString :: elements path'
      else match elements path' with
           | e :: rest => String a e :: rest
           | [] => [String a EmptyString]
           end
  end.

(** One turn of the loop of [filepath.Clean], on whole elements; [out]
    holds the elements written so far, the last one first.  Empty and
    [.] elements are dropped; [..] removes the last real element, is
    kept in a leading run of [..] of a relative path and is dropped at
    the root of a rooted one. *)
Definition cleanStep (rooted : bool) (out : list string) (e : string) : list string :=
  if String.eqb e "" || String.eqb e "." then out
  else if String.eqb e ".." then
    match out with
    | last :: out' => if String.eqb last ".." then e :: out else out'
    | [] => if rooted then [] else [e]
    end
  else e :: out.

(** [filepath.Clean]: the shortest path equivalent to [path] by purely
    lexical processing; the empty result is [.]. *)
Definition Clean (path : string) : string :=
  if String.eqb path "" then "."
  else
    let rooted := GoStrings.HasPrefix path "/" in
    let out := rev (fold_left (cleanStep rooted) (elements path) []) in
    let body := GoStrings.Join out "/" in
    if rooted then "/" ++ body
    else if String.eqb body "" then "." else body.

(** [filepath.Join]: leading empty elements are skipped, the rest is
    joined with the separator and cleaned. *)
Fixpoint Join (elem : list string) : string :=
  match elem with
  | [] => ""
  | e :: rest =>
      if String.eqb e "" then Join rest
      else Clean (GoStrings.Join elem "/")
  end.

(** No separator occurs in the string. *)
Fixpoint noSeparator (s : string) : bool :=
  match s with
  | EmptyString => true
  | String a s' => negb (Ascii.eqb a Separator) && noSeparator s'
  end.

(** A single directory or file name: not empty, no separator, and
    neither of the two dot names. *)
Definition plainName (s : string) : bool :=
  noSeparator s && negb (String.eqb s "") && negb (String.eqb s ".")
  && negb (String.eqb s "..").

End GoPath.

(** ** The artifact store's naming (lines 104-107) *)

Definition getAudioFileName (channelId videoId : string) : string :=
  let format := "opus" in
  GoPath.Join ["audio"; channelId; videoId ++ "." ++ format].

(** ** Configuration (lines 238-251) *)

Record ConfFeed := {
  Name : string;
  ChannelId : string;
  Keywords : option (list string)   (* [[]string]: nil or a slice *)
}.

Record Conf := {
  Feeds : list ConfFeed;
  ServerAddress : string
}.

(** What the configuration file says about [keywords], and the slice
    [encoding/json] decodes it to: an absent key or [null] leaves the
    field nil, an array (the empty one too) gives a non-nil slice. *)
Inductive JsonKeywords :=
| JAbsent
| JNull
| JArray (items : list string).

Definition decodeKeywords (j : JsonKeywords) : option (list string) :=
  match j with
  | JAbsent | JNull => None
  | JArray items => Some items
  end.

(** ** Errors, the process world and the outside *)

(** Go [error] values: [errors.New] and opaque library errors carry a
    message; a [*fs.PathError] says whether it wraps [fs.ErrNotExist]; an
    [*os.LinkError] names the two paths of a rename. *)
Inductive error :=
| errorString (msg : string)
| PathErrNotExist (op path : string)
| PathErrOther (op path errno : string)
| LinkError (op old new errno : string).

Definition Error (e : error) : string :=
  match e with
  | errorString msg => msg
  | PathErrNotExist op path => op ++ " " ++ path ++ ": no such file or directory"
  | PathErrOther op path errno => op ++ " " ++ path ++ ": " ++ errno
  | LinkError op old new errno => op ++ " " ++ old ++ " " ++ new ++ ": " ++ errno
  end.

(** [errors.Is err fs.ErrNotExist]. *)
Definition isNotExist (e : error) : bool :=
  match e with
  | PathErrNotExist _ _ => true
  | LinkError _ _ _ errno => String.eqb errno "no such file or directory"
  | _ => false
  end.

(** Calls that leave the process, in the order they are made. *)
Inductive Event :=
| EvHttpGet (url : string)
| EvStat (path : string)
| EvProbe (videoId : string)
| EvDownload (videoId : string)
| EvTranscode (fileIn fileTmp : string)
| EvRename (oldpath newpath : string)
| EvRemove (path : string)
| EvWriteAtom.

#[global] Instance Event_eq_dec : EqDecision Event.
Proof. solve_decision. Defined.

(** The regular files under the working directory by path as written,
    the log, the calls made so far and a clock that advances with every
    call, so that the outside may answer the same call differently. *)
Record World := {
  fs : gmap string string;
  logged : list string;
  trace : list Event;
  clock : nat
}.

(** An HTTP response: status code, status line and what [ioutil.ReadAll]
    makes of the body (the bytes read and the error, if any). *)
Record Response := {
  StatusCode : N;
  Status : string;
  Body : string * option error
}.

(** What a child process that has ended leaves behind: its combined
    output, the error of [cmd.CombinedOutput] (non-zero exit, timeout,
    start failure) and the file it wrote at its output path, if it wrote
    one. *)
Record CmdResult := {
  cmdOut : string;
  cmdErr : option error;
  cmdFile : option string
}.

(** The items of a [feeds.Feed] (gorilla/feeds). *)
Record Enclosure := { Url : string; Length : string; Type_ : string }.

Record Item := {
  ItemTitle : string;
  ItemLink : string;
  ItemDescription : string;
  Updated : N;
  Created : N;
  ItemEnclosure : Enclosure
}.

Record Feed := {
  FeedTitle : string;
  FeedLink : string;
  Items : list Item
}.

(** Library functions the program calls, pure in their arguments. *)
Record Lib := {
  ToLower : string -> string;                  (* strings.ToLower *)
  xmlUnmarshal : string -> error + YtFeed;     (* xml.Unmarshal into a YtFeed *)
  timeParse : string -> error + N;             (* time.Parse(time.RFC3339, _) *)
  urlJoinPath : string -> list string -> string;   (* url.JoinPath, error dropped *)
  newRequestErr : string -> option error       (* http.NewRequest(GET, url, nil) *)
}.

(** The answers of the outside, by call and by clock. *)
Record Outside := {
  clientDo : string -> nat -> error + Response;        (* client.Do, 3 s timeout *)
  statFault : string -> nat -> option string;          (* os.Stat failing with an errno other than ENOENT *)
  probeRun : string -> nat -> CmdResult;                (* downloader --print live_status *)
  downloadRun : string -> nat -> CmdResult;             (* downloader -f worstaudio -x *)
  convertRun : string -> string -> nat -> CmdResult;    (* converter -i fileIn ... fileTmp *)
  renameFault : string -> string -> nat -> option string;  (* os.Rename failing *)
  writeAtomErr : Feed -> nat -> option error            (* feedOut.WriteAtom(w) *)
}.

(** ** The monad: state, [log.Fatal] and panics *)

Inductive Outcome (A : Type) :=
| Ret (a : A) (w : World)   (* the call returned *)
| Exit (w : World)          (* log.Fatal: the process exited with status 1 *)
| Panic (w : World).        (* run-time panic *)
Arguments Ret {A} a w.
Arguments Exit {A} w.
Arguments Panic {A} w.

Definition M (A : Type) : Type := World -> Outcome A.

Definition ret {A} (a : A) : M A := fun w => Ret a w.

Definition bind {A B} (m : M A) (k : A -> M B) : M B :=
  fun w => match m w with
           | Ret a w' => k a w'
           | Exit w' => Exit w'
           | Panic w' => Panic w'
           end.

#[global] Instance M_ret : MRet M := @ret.
#[global] Instance M_bind : MBind M := fun A B k m => bind m k.

(** The world an outcome ends in. *)
Definition finalWorld {A} (r : Outcome A) : World :=
  match r with
  | Ret _ w | Exit w | Panic w => w
  end.

(** The world after a line is logged, and after a call is made. *)
Definition withLog (line : string) (w : World) : World :=
  {| fs := fs w; logged := logged w ++ [line]; trace := trace w; clock := clock w |}.

Definition afterCall (ev : Event) (w : World) : World :=
  {| fs := fs w; logged := logged w; trace := trace w ++ [ev]; clock := S (clock w) |}.

Definition withFs (files : gmap string string) (w : World) : World :=
  {| fs := files; logged := logged w; trace := trace w; clock := clock w |}.

Definition logPrint (line : string) : M unit := fun w => Ret tt (withLog line w).

Definition logFatal {A} (line : string) : M A := fun w => Exit (withLog line w).

Definition panic {A} : M A := fun w => Panic w.

(** Records the call and reads the clock it is made at. *)
Definition call (ev : Event) : M nat := fun w => Ret (clock w) (afterCall ev w).

Definition getFs : M (gmap string string) := fun w => Ret (fs w) w.

Definition modifyFs (f : gmap string string -> gmap string string) : M unit :=
  fun w => Ret tt (withFs (f (fs w)) w).

Definition exited {A} (r : Outcome A) : bool :=
  match r with Exit _ => true | _ => false end.

Definition returned {A} (r : Outcome A) : bool :=
  match r with Ret _ _ => true | _ => false end.

(** The calls that run the downloader or the converter: the readiness
    probe, the download and the transcode. *)
Definition invocation (ev : Event) : bool :=
  match ev with
  | EvProbe _ | EvDownload _ | EvTranscode _ _ => true
  | _ => false
  end.

Definition invocations (t : list Event) : list Event :=
  List.filter invocation t.

(** [sub] occurs in [s]. *)
Definition occursIn (sub s : string) : Prop :=
  exists pre post, s = pre ++ sub ++ post.

(** A [for ... range] loop whose body returns on [continue]; the second
    form threads a value the body updates. *)
Fixpoint forRange {A} (l : list A) (body : A -> M unit) : M unit :=
  match l with
  | [] => mret tt
  | x :: l' => body x;; forRange l' body
  end.

Fixpoint foldRange {A S} (l : list A) (s : S) (body : A -> S -> M S) : M S :=
  match l with
  | [] => mret s
  | x :: l' => s' ← body x s; foldRange l' s' body
  end.

(** ** Files and child processes *)

Section Program.

Variable lib : Lib.
Variable out : Outside.

(** [os.Stat name]: the size of the file, or the error. *)
Definition osStat (name : string) : M (option N * option error) :=
  t ← call (EvStat name);
  files ← getFs;
  mret (match statFault out name t with
        | Some errno => (None, Some (PathErrOther "stat" name errno))
        | None =>
            match files !! name with
            | Some content => (Some (N.of_nat (String.length content)), None)
            | None => (None, Some (PathErrNotExist "stat" name))
            end
        end).

(** [os.Remove name]. *)
Definition osRemove (name : string) : M (option error) :=
  _ ← call (EvRemove name);
  files ← getFs;
  match files !! name with
  | Some _ => modifyFs (delete name);; mret None
  | None => mret (Some (PathErrNotExist "remove" name))
  end.

(** [os.Rename oldpath newpath]: replaces [newpath]; its error is an
    [*os.LinkError], which names both paths. *)
Definition osRename (oldpath newpath : string) : M (option error) :=
  t ← call (EvRename oldpath newpath);
  files ← getFs;
  match renameFault out oldpath newpath t with
  | Some errno => mret (Some (LinkError "rename" oldpath newpath errno))
  | None =>
      match files !! oldpath with
      | Some content =>
          modifyFs (fun m => <[newpath := content]> (delete oldpath m));;
          mret None
      | None =>
          mret (Some (LinkError "rename" oldpath newpath "no such file or directory"))
      end
  end.

(** [cmd.CombinedOutput] of a child process that writes [outPath]. *)
Definition combinedOutput (ev : Event) (run : nat -> CmdResult)
    (outPath : option string) : M (string * option error) :=
  t ← call ev;
  let r := run t in
  match outPath, cmdFile r with
  | Some p, Some content => modifyFs (insert p content)
  | _, _ => mret tt
  end;;
  mret (cmdOut r, cmdErr r).

(** ** [readFeed] (lines 45-67) *)

Definition StatusOK : N := 200.

Definition readFeed (channelId : string) : M (option string * option error) :=
  let path := "https://www.youtube.com/feeds/videos.xml?channel_id=" ++ channelId in
  match newRequestErr lib path with
  | Some err => logFatal (Error err)
  | None =>
      t ← call (EvHttpGet path);
      match clientDo out path t with
      | inl err => mret (None, Some err)
      | inr res =>
          let err : option error := None in   (* client.Do gave no error *)
          if negb (StatusCode res =? StatusOK)%N then
            let err := Some (errorString ("server response status " ++ Status res)) in
            mret (None, err)
          else
            match Body res with
            | (body, None) => mret (Some body, None)
            | (_, Some _) =>
                (* the error of ReadAll lives in the inner block only *)
                mret (None, err)
            end
      end
  end.

(** ** [parseFeed] (lines 69-88) *)

(** The bytes of a slice; a nil slice has none. *)
Definition bytesOf (data : option string) : string := default "" data.

Definition parseFeed (data : option string) (keywords : option (list string)) : M YtFeed :=
  match xmlUnmarshal lib (bytesOf data) with
  | inl err => logFatal (Error err)
  | inr ytfeed => mret (filterFeed (ToLower lib) ytfeed keywords)
  end.

(** ** [downloadAudio] (lines 90-102) *)

Definition downloadAudio (videoId : string) : M (string * option error) :=
  let outFile := videoId in
  '(o, err) ← combinedOutput (EvDownload videoId) (downloadRun out videoId) (Some outFile);
  match err with
  | Some _ => _ ← osRemove outFile; logPrint o
  | None => mret tt
  end;;
  mret (outFile, err).

(** ** [isVideoReady] (lines 109-118) *)

Definition isVideoReady (videoId : string) : M bool :=
  '(o, err) ← combinedOutput (EvProbe videoId) (probeRun out videoId) None;
  match err with
  | Some _ => mret false
  | None =>
      let s := o in
      mret (GoStrings.Contains s "not_live" || GoStrings.Contains s "was_live")
  end.

(** ** [recodeAudio] (lines 120-132) *)

Definition recodeAudio (fileIn fileOut : string) : M unit :=
  let fileTmp := "tmp.opus" in
  '(o, err) ← combinedOutput (EvTranscode fileIn fileTmp)
                (convertRun out fileIn fileTmp) (Some fileTmp);
  match err with
  | Some e => logPrint o;; logFatal (Error e)
  | None => mret tt
  end;;
  err ← osRename fileTmp fileOut;
  match err with
  | Some e => logFatal (Error e)
  | None => mret tt
  end.

(** ** [doUpdate] (lines 134-165) *)

(** Lines 153-162: download, recode, remove the download. *)
Definition downloadEntry (desc : string) (entry : YtEntry) (fileDst : string) : M unit :=
  logPrint ("downloading " ++ desc);;
  '(fileDown, err) ← downloadAudio (VideoId entry);
  match err with
  | Some _ => logPrint (desc ++ " download error, skipped")
  | None =>
      logPrint (desc ++ " downloaded");;
      logPrint ("recoding " ++ desc);;
      recodeAudio fileDown fileDst;;
      _ ← osRemove fileDown;
      logPrint (desc ++ " recoded")
  end.

(** Lines 147-162: what follows a failed existence check. *)
Definition fetchEntry (feed : ConfFeed) (entry : YtEntry) (fileDst : string) : M unit :=
  let desc := Name feed ++ " " ++ VideoId entry in
  logPrint ("found new video " ++ desc);;
  ready ← isVideoReady (VideoId entry);
  if negb ready then logPrint (desc ++ " not ready, skipped")
  else downloadEntry desc entry fileDst.

(** The body of the inner loop (lines 143-162). *)
Definition updateEntry (feed : ConfFeed) (entry : YtEntry) : M unit :=
  let fileDst := getAudioFileName (ChannelId feed) (VideoId entry) in
  '(_, err) ← osStat fileDst;
  match err with
  | None => mret tt
  | Some _ => fetchEntry feed entry fileDst
  end.

(** The body of the outer loop (lines 136-163). *)
Definition updateFeed (feed : ConfFeed) : M unit :=
  '(data, err) ← readFeed (ChannelId feed);
  match err with
  | Some e => logPrint (Error e)
  | None =>
      ytfeed ← parseFeed data (Keywords feed);
      forRange (Entries ytfeed) (updateEntry feed)
  end.

Definition doUpdate (conf : Conf) : M unit :=
  forRange (Feeds conf) updateFeed.

(** ** [feedGetHandler] (lines 174-211) *)

(** [strconv.FormatInt n 10] of a file size. *)
Definition FormatInt (n : N) : string := NilZero.string_of_uint (N.to_uint n).

(** The body of the inner loop (lines 188-205); [feedOut.Add] appends. *)
Definition publishEntry (conf : Conf) (feed : ConfFeed) (entry : YtEntry)
    (feedOut : Feed) : M Feed :=
  let name := getAudioFileName (ChannelId feed) (VideoId entry) in
  '(fileInfo, err) ← osStat name;
  match err with
  | Some _ => mret feedOut
  | None =>
      let fileSize := FormatInt (default 0%N fileInfo) in
      let path := urlJoinPath lib "http://"
                    [ServerAddress conf; "audio"; ChannelId feed; VideoId entry ++ ".opus"] in
      match timeParse lib (Published entry) with
      | inl e => logFatal (Error e)
      | inr published =>
          match Media entry with
          | None => panic   (* entry.Media is nil *)
          | Some media =>
              let item := {| ItemTitle := Title entry;
                             ItemLink := path;
                             ItemDescription := Description media;
                             Updated := published;
                             Created := published;
                             ItemEnclosure := {| Url := path; Length := fileSize;
                                                 Type_ := "audio/opus" |} |} in
              mret {| FeedTitle := FeedTitle feedOut; FeedLink := FeedLink feedOut;
                      Items := Items feedOut ++ [item] |}
          end
      end
  end.

(** The body of the outer loop (lines 181-206). *)
Definition publishFeed (conf : Conf) (feed : ConfFeed) (feedOut : Feed) : M Feed :=
  '(data, err) ← readFeed (ChannelId feed);
  match err with
  | Some e => logPrint (Error e);; mret feedOut
  | None =>
      ytfeed ← parseFeed data (Keywords feed);
      foldRange (Entries ytfeed) feedOut (publishEntry conf feed)
  end.

(** The handler returns the feed whose Atom document it wrote to the
    response in full. *)
Definition feedGetHandler (conf : Conf) : M Feed :=
  let path := urlJoinPath lib "http://" [ServerAddress conf; "feed"] in
  let feedOut := {| FeedTitle := "low-fi podcast"; FeedLink := path; Items := [] |} in
  feedOut ← foldRange (Feeds conf) feedOut (publishFeed conf);
  t ← call EvWriteAtom;
  match writeAtomErr out feedOut t with
  | Some e => logFatal (Error e)
  | None => mret feedOut
  end.

End Program.

(** ** Sample data used by the closed examples *)

Module Sample.

Definition entry (title videoId : string) : YtEntry :=
  {| Title := title; VideoId := videoId;
     Published := "2023-05-01T10:00:00+00:00";
     Media := Some {| Description := "about " ++ title |} |}.

Definition feedAB : YtFeed := {| Entries := [entry "A" "vidA"; entry "B" "vidB"] |}.

(** The library at the sample documents: ["<feed>AB</feed>"] is the
    feed with the entries titled A and B, ["<feed>"] is cut short and
    rejected, as is every timestamp that is not the sample one. *)
Definition lib (docs : list (string * YtFeed)) : Lib :=
  {| ToLower := GoStrings.asciiToLower;
     xmlUnmarshal := fun data =>
       match list_find (fun d => String.eqb (fst d) data = true) docs with
       | Some (_, (_, f)) => inr f
       | None => inl (errorString "XML syntax error: unexpected EOF")
       end;
     timeParse := fun s =>
       if String.eqb s "2023-05-01T10:00:00+00:00" then inr 1682935200%N
       else inl (errorString ("parsing time: cannot parse " ++ s));
     urlJoinPath := fun base elem => GoStrings.Join (base :: elem) "/";
     newRequestErr := fun _ => None |}.

Definition ok (body : string) : error + Response :=
  inr {| StatusCode := 200; Status := "200 OK"; Body := (body, None) |}.

Definition ran (output : string) (file : option string) : CmdResult :=
  {| cmdOut := output; cmdErr := None; cmdFile := file |}.

Definition failed (output : string) : CmdResult :=
  {| cmdOut := output; cmdErr := Some (errorString "exit status 1"); cmdFile := None |}.

(** An outside that answers every call the same way at every time:
    [net] by URL, [faults] the paths that [os.Stat] and [os.Rename]
    are denied, and one result for each tool. *)
Definition outside (net : string -> error + Response) (faults : list string)
    (probe download convert : CmdResult) : Outside :=
  {| clientDo := fun url _ => net url;
     statFault := fun path _ =>
       if existsb (String.eqb path) faults then Some "permission denied" else None;
     probeRun := fun _ _ => probe;
     downloadRun := fun _ _ => download;
     convertRun := fun _ _ _ => convert;
     renameFault := fun _ newpath _ =>
       if existsb (String.eqb newpath) faults then Some "permission denied" else None;
     writeAtomErr := fun _ _ => None |}.

Definition feedUrl (channelId : string) : string :=
  "https://www.youtube.com/feeds/videos.xml?channel_id=" ++ channelId.

(** A line of output. *)
Definition line (s : string) : string := s ++ String "010" "".

(** A 200 response whose body breaks off while it is read. *)
Definition cut : error + Response :=
  inr {| StatusCode := 200; Status := "200 OK";
         Body := ("<fee", Some (errorString "unexpected EOF")) |}.

(** The network serving [doc] for the channel [chan1] only. *)
Definition net1 (doc : error + Response) (url : string) : error + Response :=
  if String.eqb url (feedUrl "chan1") then doc
  else inl (errorString "context deadline exceeded").

Definition chan (name channelId : string) : ConfFeed :=
  {| Name := name; ChannelId := channelId; Keywords := None |}.

Definition conf (feeds : list ConfFeed) : Conf :=
  {| Feeds := feeds; ServerAddress := "127.0.0.1:8080" |}.

(** A feed whose second entry has a publish time that is no timestamp. *)
Definition undated (title videoId : string) : YtEntry :=
  {| Title := title; VideoId := videoId; Published := "yesterday";
     Media := Some {| Description := "about " ++ title |} |}.

Definition feedU : YtFeed := {| Entries := [entry "A" "vidA"; undated "U" "vidU"] |}.

(** A feed whose one entry carries a path as its video identifier. *)
Definition feedX : YtFeed := {| Entries := [entry "X" "audio/chan1/vidA.opus"] |}.

Definition world (files : list (string * string)) : World :=
  {| fs := list_to_map files; logged := []; trace := []; clock := 0 |}.

End Sample.

(** ** What a sweep or a request may see *)

(** [polled lib out feed e]: at some time the retrieval for the channel
    returns without error a document that parses, and [e] is among its
    entries after filtering. *)
Definition polled (lib : Lib) (out : Outside) (feed : ConfFeed) (e : YtEntry) : Prop :=
  exists (w0 w1 : World) (data : option string) (ytfeed : YtFeed),
    readFeed lib out (ChannelId feed) w0 = Ret (data, None) w1
    /\ xmlUnmarshal lib (bytesOf data) = inr ytfeed
    /\ e ∈ Entries (filterFeed (ToLower lib) ytfeed (Keywords feed)).

(** What holds of the feed under construction and of the world while a
    request is served from [w]: no file has changed, the feed has its
    title and link, and it has no item when no polled entry has an
    artifact. *)
Definition serving (lib : Lib) (out : Outside) (conf : Conf) (w : World)
    (feedOut : Feed) (w' : World) : Prop :=
  fs w' = fs w
  /\ FeedTitle feedOut = "low-fi podcast"
  /\ FeedLink feedOut = urlJoinPath lib "http://" [ServerAddress conf; "feed"]
  /\ ((forall feed e, feed ∈ Feeds conf -> polled lib out feed e ->
         fs w !! getAudioFileName (ChannelId feed) (VideoId e) = None) ->
      Items feedOut = []).

(** ** Relations between worlds *)

(** [steps R m w]: the computation [m], started in [w], ends (by return,
    exit or panic) in a world related to [w] by [R]. *)
Definition steps (R : World -> World -> Prop) {A} (m : M A) (w : World) : Prop :=
  R w (finalWorld (m w)).

(** The calls made and the lines logged so far stay where they are. *)
Definition grows (w w' : World) : Prop :=
  trace w `prefix_of` trace w' /\ logged w `prefix_of` logged w'.

(** Nothing happened to the file at [path]. *)
Definition keepsFile (path : string) (w w' : World) : Prop :=
  fs w' !! path = fs w !! path.

(** No file changed and no tool was run. *)
Definition idle (w w' : World) : Prop :=
  fs w' = fs w /\ invocations (trace w') = invocations (trace w).

(** The tool runs made for the video [v]: its probe, its download and the
    transcode of its download. *)
Definition concerns (v : string) (ev : Event) : bool :=
  match ev with
  | EvProbe videoId | EvDownload videoId | EvTranscode videoId _ => String.eqb videoId v
  | _ => false
  end.

(** No tool was run for the video [v]. *)
Definition silentAbout (v : string) (w w' : World) : Prop :=
  List.filter (concerns v) (trace w') = List.filter (concerns v) (trace w).

(** The artifacts of the video [v], in every channel that is polled with
    it, are as they were, and no tool was run for [v]. *)
Definition settled (lib : Lib) (out : Outside) (conf : Conf) (v : string)
    (w w' : World) : Prop :=
  (forall feed e, feed ∈ Feeds conf -> polled lib out feed e -> VideoId e = v ->
     keepsFile (getAudioFileName (ChannelId feed) v) w w')
  /\ silentAbout v w w'.

(** ** Start-up: [checkExecs], [readConfFeeds] and [main] (lines 219-279) *)

(** How [exec.LookPath] fails, in the order [checkExecs] asks:
    [errors.Is err exec.ErrNotFound], [errors.Is err exec.ErrDot], or
    any other error. *)
Inductive LookError :=
| ErrNotFound
| ErrDot
| ErrLook (e : error).

(** What start-up finds on the machine: executables, the configuration
    file and its decoding ([json.NewDecoder(r).Decode] into a
    [ConfFeeds]), and whether a directory can be made. *)
Record Boot := {
  lookPath : string -> option LookError;
  osOpen : string -> error + string;
  jsonDecode : string -> error + list ConfFeed;
  mkdirAll : string -> option error
}.

(** The tool names (line 219-221), in the order [main] passes them. *)
Definition downloader : string := "yt-dlp".
Definition converter : string := "ffmpeg".
Definition probe : string := "ffprobe".

Section Startup.

Variable boot : Boot.

(** Lines 223-236.  [execs] holds the values of the variables pointed
    to, which are distinct; the result holds their values afterwards. *)
Fixpoint checkExecs (execs : list string) : M (list string) :=
  match execs with
  | [] => mret []
  | name :: rest =>
      name' ← match lookPath boot name with
              | None => mret name
              | Some ErrNotFound => logFatal (name ++ " executable not found")
              | Some ErrDot =>
                  logPrint (name ++ " executable found in current directory");;
                  mret ("./" ++ name)
              | Some (ErrLook e) => logFatal (Error e)
              end;
      rest' ← checkExecs rest;
      mret (name' :: rest')
  end.

(** Lines 253-264. *)
Definition readConfFeeds (fileName : string) : M (list ConfFeed) :=
  match osOpen boot fileName with
  | inl err => logFatal (Error err)
  | inr content =>
      match jsonDecode boot content with
      | inl err => logFatal ("error while parsing " ++ fileName ++ ": " ++ Error err)
      | inr feeds => mret feeds
      end
  end.

(** The directory [main] makes for a channel (line 276). *)
Definition channelDir (channelId : string) : string :=
  GoPath.Join ["audio"; channelId].

(** Lines 271-279 of [main], given the values of the two flags: the
    configuration, the tool names after the check and the directories
    made, in the order they were made. *)
Definition mainInit (confFeedsFile serverAddress : string)
    : M (Conf * list string * list string) :=
  feeds ← readConfFeeds confFeedsFile;
  let conf := {| Feeds := feeds; ServerAddress := serverAddress |} in
  tools ← checkExecs [downloader; converter; probe];
  dirs ← foldRange (Feeds conf) []
           (fun feed (made : list string) =>
              match mkdirAll boot (channelDir (ChannelId feed)) with
              | Some err => logFatal (Error err)
              | None => mret (made ++ [channelDir (ChannelId feed)])%list
              end);
  mret (conf, tools, dirs).

End Startup.

(** The first [rounds] turns of the loop of [updateFeeds] (lines
    167-172), which has no exit; sleeping changes nothing in the world. *)
Fixpoint updateFeeds (lib : Lib) (out : Outside) (rounds : nat) (conf : Conf) : M unit :=
  match rounds with
  | 0 => mret tt
  | S rounds' => doUpdate lib out conf;; updateFeeds lib out rounds' conf
  end.

(** The feed URLs requested, in the order of the requests. *)
Definition requests (t : list Event) : list string :=
  omap (fun ev => match ev with EvHttpGet url => Some url | _ => None end) t.

(** The requests made so far are as they were. *)
Definition sameRequests (w w' : World) : Prop :=
  requests (trace w') = requests (trace w).

(** ** Items, tools and failures *)

(** An item as lines 196-203 build it for [entry] of [feed], whose
    artifact holds [content]. *)
Definition itemOf (lib : Lib) (conf : Conf) (feed : ConfFeed) (entry : YtEntry)
    (content : string) (item : Item) : Prop :=
  let path := urlJoinPath lib "http://"
                [ServerAddress conf; "audio"; ChannelId feed; VideoId entry ++ ".opus"] in
  ItemTitle item = Title entry
  /\ ItemLink item = path
  /\ Url (ItemEnclosure item) = path
  /\ Length (ItemEnclosure item) = FormatInt (N.of_nat (String.length content))
  /\ Type_ (ItemEnclosure item) = "audio/opus"
  /\ timeParse lib (Published entry) = inr (Updated item)
  /\ Created item = Updated item
  /\ (exists media, Media entry = Some media /\ ItemDescription item = Description media).

(** Every item stands for a polled entry of a configured channel whose
    artifact is in [files]. *)
Definition listed (lib : Lib) (out : Outside) (conf : Conf)
    (files : gmap string string) (item : Item) : Prop :=
  exists feed entry content,
    feed ∈ Feeds conf /\ polled lib out feed entry
    /\ files !! getAudioFileName (ChannelId feed) (VideoId entry) = Some content
    /\ itemOf lib conf feed entry content item.

(** The executable is on the search path or in the working directory. *)
Definition usable (boot : Boot) (name : string) : bool :=
  match lookPath boot name with
  | None | Some ErrDot => true
  | Some ErrNotFound | Some (ErrLook _) => false
  end.

(** The executable is found in the working directory only. *)
Definition foundHere (boot : Boot) (name : string) : bool :=
  match lookPath boot name with
  | Some ErrDot => true
  | _ => false
  end.

(** * Properties *)

(** ** Strings *)

Section StringFacts.

Lemma append_length (s t : string) :
  String.length (s ++ t) = String.length s + String.length t.
Proof. induction s as [|a s IH]; simpl; congruence. Qed.

Lemma append_inv_r (s t u : string) : s ++ u = t ++ u -> s = t.
Proof.
  revert t. induction s as [|a s IH]; intros [|b t] H; simpl in H.
  - reflexivity.
  - apply (f_equal String.length) in H. simpl in H.
    rewrite append_length in H. lia.
  - apply (f_equal String.length) in H. simpl in H.
    rewrite append_length in H. lia.
  - injection H as -> H. f_equal. auto.
Qed.

Lemma HasPrefix_spec (s p : string) :
  GoStrings.HasPrefix s p = true <-> exists post, s = p ++ post.
Proof.
  revert s. induction p as [|b p IH]; intros s; simpl.
  - split; [intros _; by exists s | done].
  - destruct s as [|a s].
    + split; [discriminate | intros [post H]; discriminate].
    + rewrite andb_true_iff, Ascii.eqb_eq, IH. split.
      * intros [-> [post ->]]. eauto.
      * intros [post H]. injection H as -> ->. eauto.
Qed.

Lemma Contains_spec (s sub : string) :
  GoStrings.Contains s sub = true <-> exists pre post, s = pre ++ sub ++ post.
Proof.
  induction s as [|a s IH]; simpl; rewrite orb_true_iff, HasPrefix_spec.
  - split.
    + intros [[post H] | H]; [exists "", post; exact H | discriminate].
    + intros [pre [post H]]. left. destruct pre; [eauto | discriminate].
  - rewrite IH. split.
    + intros [[post H] | [pre [post H]]].
      * exists "", post. exact H.
      * exists (String a pre), post. simpl. congruence.
    + intros [[|b pre] [post H]]; simpl in H.
      * left. eauto.
      * right. injection H as -> ->. eauto.
Qed.

Lemma Contains_empty (s : string) : GoStrings.Contains s "" = true.
Proof. destruct s; reflexivity. Qed.

End StringFacts.

(** ** Keyword filtering *)

Section FilteringFacts.

Variable ToLower : string -> string.

Local Abbreviation keeps ks := (fun e : YtEntry => matchesb ToLower ks e = true).

Lemma matchesb_spec (ks : list string) (e : YtEntry) :
  matchesb ToLower ks e = true <-> title_matches ToLower ks e.
Proof.
  unfold matchesb, title_matches, ci_substring.
  rewrite existsb_exists. split.
  - intros [k [Hin Hc]]. exists k. split.
    + by apply list_elem_of_In.
    + by apply Contains_spec.
  - intros [k [Hin Hc]]. exists k. split.
    + by apply list_elem_of_In.
    + by apply Contains_spec.
Qed.

(** The inner loop appends the entry at most once: once if some keyword
    matches, never otherwise. *)
Lemma keywordLoop_spec (e : YtEntry) (ks : list string) (acc : list YtEntry) :
  keywordLoop ToLower e ks acc
  = (acc ++ (if matchesb ToLower ks e then [e] else []))%list.
Proof.
  induction ks as [|k ks IH]; simpl.
  - by rewrite app_nil_r.
  - destruct (GoStrings.Contains _ _); simpl; [done | exact IH].
Qed.

Lemma entryLoop_spec (es : list YtEntry) (ks : list string) (acc : list YtEntry) :
  entryLoop ToLower es ks acc = (acc ++ filter (keeps ks) es)%list.
Proof.
  revert acc. induction es as [|e es IH]; intros acc; simpl.
  - by rewrite app_nil_r.
  - rewrite IH, keywordLoop_spec, filter_cons.
    destruct (matchesb ToLower ks e) eqn:Hm.
    + rewrite decide_True by done. by rewrite <- app_assoc.
    + rewrite decide_False by congruence. by rewrite app_nil_r.
Qed.

Lemma entryLoop_no_keywords (es acc : list YtEntry) :
  entryLoop ToLower es [] acc = acc.
Proof. revert acc. induction es as [|e es IH]; intros acc; simpl; auto. Qed.

Lemma filterFeed_some (f : YtFeed) (ks : list string) :
  Entries (filterFeed ToLower f (Some ks)) = filter (keeps ks) (Entries f).
Proof. simpl. by rewrite entryLoop_spec. Qed.

Lemma count_occ_filter (P : YtEntry -> Prop) `{!forall x, Decision (P x)}
    (l : list YtEntry) (e : YtEntry) :
  count_occ YtEntry_eq_dec (filter P l) e
  = if decide (P e) then count_occ YtEntry_eq_dec l e else 0.
Proof.
  induction l as [|x l IH]; simpl.
  - by destruct (decide (P e)).
  - rewrite filter_cons. destruct (decide (P x)) as [Hx|Hx]; simpl.
    + destruct (YtEntry_eq_dec x e) as [->|Hne]; rewrite IH; [|done].
      by destruct (decide (P e)).
    + rewrite IH. destruct (YtEntry_eq_dec x e) as [->|Hne]; [|done].
      by destruct (decide (P e)).
Qed.

End FilteringFacts.

Section ParseFeedFacts.

Variable lib : Lib.

Lemma parseFeed_ok (data : option string) (keywords : option (list string))
    (ytfeed : YtFeed) (w : World) :
  xmlUnmarshal lib (bytesOf data) = inr ytfeed ->
  parseFeed lib data keywords w = Ret (filterFeed (ToLower lib) ytfeed keywords) w.
Proof. intros H. unfold parseFeed. by rewrite H. Qed.

Lemma parseFeed_malformed (data : option string) (keywords : option (list string))
    (err : error) (w : World) :
  xmlUnmarshal lib (bytesOf data) = inl err ->
  parseFeed lib data keywords w = logFatal (Error err) w.
Proof. intros H. unfold parseFeed. by rewrite H. Qed.

End ParseFeedFacts.

(** C1, as the code has it: a document that parses is returned whole and
    unmodified when the keyword slice is absent (nil); for every keyword
    slice that is present, the empty one included, [parseFeed] returns
    exactly the entries whose title contains at least one keyword as a
    substring after lower-casing both.  A channel configured with
    [keywords: []] therefore retains no entry. *)
Theorem C1_keyword_filtering (lib : Lib) (data : option string) (ytfeed : YtFeed)
    (w : World) :
  xmlUnmarshal lib (bytesOf data) = inr ytfeed ->
  parseFeed lib data (decodeKeywords JAbsent) w = Ret ytfeed w
  /\ (forall ks : list string,
        exists f : YtFeed,
          parseFeed lib data (decodeKeywords (JArray ks)) w = Ret f w
          /\ forall e : YtEntry,
               e ∈ Entries f
               <-> e ∈ Entries ytfeed /\ title_matches (ToLower lib) ks e)
  /\ parseFeed lib data (decodeKeywords (JArray [])) w = Ret {| Entries := [] |} w.
Proof.
  intros Hdoc. split; [|split].
  - rewrite (parseFeed_ok lib _ _ _ _ Hdoc). reflexivity.
  - intros ks. eexists. split.
    + by apply parseFeed_ok.
    + intros e. simpl decodeKeywords. rewrite filterFeed_some.
      rewrite list_elem_of_filter, matchesb_spec. tauto.
  - rewrite (parseFeed_ok lib _ _ _ _ Hdoc). simpl.
    by rewrite entryLoop_no_keywords.
Qed.

(** C1, witness: the sample document with the entries titled A and B. *)
Lemma C1_keyword_filtering_witness :
  let lib := Sample.lib [("<feed>AB</feed>", Sample.feedAB)] in
  let w := Sample.world [] in
  parseFeed lib (Some "<feed>AB</feed>") None w = Ret Sample.feedAB w
  /\ (forall ks : list string,
        exists f : YtFeed,
          parseFeed lib (Some "<feed>AB</feed>") (Some ks) w = Ret f w
          /\ forall e : YtEntry,
               e ∈ Entries f
               <-> e ∈ Entries Sample.feedAB /\ title_matches GoStrings.asciiToLower ks e)
  /\ parseFeed lib (Some "<feed>AB</feed>") (Some []) w = Ret {| Entries := [] |} w.
Proof.
  exact (C1_keyword_filtering (Sample.lib [("<feed>AB</feed>", Sample.feedAB)])
           (Some "<feed>AB</feed>") Sample.feedAB (Sample.world []) eq_refl).
Defined.

(** C1, counterexample: configured with [keywords: []], the feed with the
    entries titled A and B comes back empty, not with both entries. *)
Lemma C1_empty_keywords_counterexample :
  let lib := Sample.lib [("<feed>AB</feed>", Sample.feedAB)] in
  let w := Sample.world [] in
  let r := parseFeed lib (Some "<feed>AB</feed>") (decodeKeywords (JArray [])) w in
  r = Ret {| Entries := [] |} w /\ r <> Ret Sample.feedAB w.
Proof. split; [reflexivity | discriminate]. Qed.

(** C9: for a keyword slice that is not nil, the filtered entries are a
    subsequence of the parsed entries, in their order; an entry occurs in
    the output as often as in the input when its title matches and not at
    all otherwise, however many keywords match, so a feed without
    repeated entries is filtered to one without repeated entries. *)
Theorem C9_filter_subsequence (ToLower : string -> string) (ytfeed : YtFeed)
    (ks : list string) :
  let result := Entries (filterFeed ToLower ytfeed (Some ks)) in
  sublist result (Entries ytfeed)
  /\ (forall e : YtEntry,
        count_occ YtEntry_eq_dec result e
        = if matchesb ToLower ks e then count_occ YtEntry_eq_dec (Entries ytfeed) e else 0)
  /\ (NoDup (Entries ytfeed) -> NoDup result).
Proof.
  cbv zeta. rewrite filterFeed_some. split; [|split].
  - apply sublist_filter.
  - intros e. rewrite count_occ_filter.
    destruct (matchesb ToLower ks e) eqn:Hm.
    + by rewrite decide_True.
    + rewrite decide_False; [done | congruence].
  - apply NoDup_filter.
Qed.

(** ** Canonical paths *)

Section PathFacts.

Import GoPath.

Lemma noSeparator_app (s t : string) :
  noSeparator (s ++ t) = noSeparator s && noSeparator t.
Proof.
  induction s as [|a s IH]; simpl; [done|].
  rewrite IH. by rewrite andb_assoc.
Qed.

Lemma elements_plain (s : string) : noSeparator s = true -> elements s = [s].
Proof.
  induction s as [|a s IH]; simpl; [done|].
  rewrite andb_true_iff, negb_true_iff. intros [-> Hs].
  by rewrite (IH Hs).
Qed.

Lemma elements_cons (s t : string) :
  noSeparator s = true -> elements (s ++ String "/" t) = s :: elements t.
Proof.
  induction s as [|a s IH]; simpl; [done|].
  rewrite andb_true_iff, negb_true_iff. intros [-> Hs].
  by rewrite (IH Hs).
Qed.

Lemma not_short (v suffix s : string) :
  String.length s < String.length suffix -> String.eqb (v ++ suffix) s = false.
Proof.
  intros Hlen. apply String.eqb_neq. intros H.
  apply (f_equal String.length) in H. rewrite append_length in H. lia.
Qed.

Lemma getAudioFileName_plain (channelId videoId : string) :
  plainName channelId = true -> noSeparator videoId = true ->
  getAudioFileName channelId videoId
  = "audio/" ++ channelId ++ "/" ++ videoId ++ ".opus".
Proof.
  unfold plainName. rewrite !andb_true_iff, !negb_true_iff.
  intros [[[Hc Hc0] Hc1] Hc2] Hv.
  assert (Hvo : noSeparator (videoId ++ ".opus") = true)
    by (rewrite noSeparator_app, Hv; reflexivity).
  unfold getAudioFileName, Join, Clean. simpl.
  rewrite (elements_cons channelId) by exact Hc.
  rewrite (elements_plain _ Hvo).
  unfold cleanStep; simpl. rewrite Hc0, Hc1, Hc2. simpl.
  rewrite (not_short videoId ".opus" "") by (simpl; lia).
  rewrite (not_short videoId ".opus" ".") by (simpl; lia).
  rewrite (not_short videoId ".opus" "..") by (simpl; lia).
  simpl. reflexivity.
Qed.

Lemma getAudioFileName_inj (c v c' v' : string) :
  plainName c = true -> noSeparator v = true ->
  plainName c' = true -> noSeparator v' = true ->
  getAudioFileName c v = getAudioFileName c' v' -> c = c' /\ v = v'.
Proof.
  intros Hc Hv Hc' Hv' H.
  rewrite !getAudioFileName_plain in H by assumption.
  apply (f_equal elements) in H.
  assert (Hn : forall s, plainName s = true -> noSeparator s = true).
  { intros s. unfold plainName. rewrite !andb_true_iff. tauto. }
  simpl in H.
  rewrite (elements_cons c), (elements_cons c') in H by auto.
  rewrite !elements_plain in H
    by (rewrite noSeparator_app; by (rewrite Hv || rewrite Hv')).
  injection H as -> H. split; [done|]. by apply append_inv_r in H.
Qed.

End PathFacts.

(** C3, as the code has it: the artifact path is a function of the two
    identifiers (the format is the constant [opus]), so equal inputs give
    identical paths; it separates pairs whose channel identifier is a
    plain name (not empty, without a path separator, not a dot name) and
    whose video identifier has no path separator, where it is
    [audio/<channelId>/<videoId>.opus]. *)
Theorem C3_canonical_path :
  (forall c v c' v' : string,
      c = c' -> v = v' -> getAudioFileName c v = getAudioFileName c' v')
  /\ (forall c v c' v' : string,
        GoPath.plainName c = true -> GoPath.noSeparator v = true ->
        GoPath.plainName c' = true -> GoPath.noSeparator v' = true ->
        getAudioFileName c v = getAudioFileName c' v' -> c = c' /\ v = v')
  /\ (forall c v : string,
        GoPath.plainName c = true -> GoPath.noSeparator v = true ->
        getAudioFileName c v = "audio/" ++ c ++ "/" ++ v ++ ".opus").
Proof.
  split; [|split].
  - by intros c v c' v' -> ->.
  - exact getAudioFileName_inj.
  - exact getAudioFileName_plain.
Qed.

(** C3, witness: two videos of one channel. *)
Lemma C3_canonical_path_witness :
  (getAudioFileName "chan1" "vid1" = getAudioFileName "chan1" "vid2" ->
   "chan1" = "chan1" /\ "vid1" = "vid2")
  /\ getAudioFileName "chan1" "vid1" = "audio/chan1/vid1.opus".
Proof.
  split.
  - exact (proj1 (proj2 C3_canonical_path) "chan1" "vid1" "chan1" "vid2"
             eq_refl eq_refl eq_refl eq_refl).
  - exact (proj2 (proj2 C3_canonical_path) "chan1" "vid1" eq_refl eq_refl).
Defined.

(** C3, counterexample: two distinct pairs with one path, because
    [filepath.Join] does not keep the boundary between its elements. *)
Lemma C3_collision_counterexample :
  getAudioFileName "a/b" "c" = "audio/a/b/c.opus"
  /\ getAudioFileName "a" "b/c" = "audio/a/b/c.opus"
  /\ ("a/b", "c") <> ("a", "b/c").
Proof. split; [reflexivity | split; [reflexivity | discriminate]]. Qed.

(** ** Running the monad *)

Ltac run := cbv [mbind M_bind bind mret M_ret ret call logPrint logFatal
                 modifyFs getFs panic].

Lemma bind_ret {A B} (m : M A) (k : A -> M B) (w : World) (a : A) (w' : World) :
  m w = Ret a w' -> (m ≫= k) w = k a w'.
Proof. intros H. unfold mbind, M_bind, bind. by rewrite H. Qed.

Lemma bind_exit {A B} (m : M A) (k : A -> M B) (w w' : World) :
  m w = Exit w' -> (m ≫= k) w = Exit w'.
Proof. intros H. unfold mbind, M_bind, bind. by rewrite H. Qed.

(** A relation between the world a computation starts in and the world it
    ends in, whatever the outcome; reflexive and transitive relations
    pass through sequencing and loops. *)
Section Steps.

Variable R : World -> World -> Prop.
Hypothesis R_refl : forall w, R w w.
Hypothesis R_trans : forall a b c, R a b -> R b c -> R a c.

Local Abbreviation steps := (steps R).

Lemma steps_ret {A} (a : A) (w : World) : steps (mret a) w.
Proof. apply R_refl. Qed.

Lemma steps_panic {A} (w : World) : steps (@panic A) w.
Proof. apply R_refl. Qed.

Lemma steps_getFs (w : World) : steps getFs w.
Proof. apply R_refl. Qed.

Lemma steps_bind {A B} (m : M A) (k : A -> M B) (w : World) :
  steps m w ->
  (forall a w', m w = Ret a w' -> R w w' -> steps (k a) w') ->
  steps (m ≫= k) w.
Proof.
  unfold steps. intros Hm Hk. unfold mbind, M_bind, bind.
  destruct (m w) as [a w'| w' | w'] eqn:E; simpl in *; [|done..].
  eapply R_trans; [exact Hm|]. by apply Hk.
Qed.

Lemma steps_forRange {A} (l : list A) (body : A -> M unit) (w : World) :
  (forall x w', x ∈ l -> R w w' -> steps (body x) w') ->
  steps (forRange l body) w.
Proof.
  revert w. induction l as [|x l IH]; intros w Hbody; simpl.
  - apply steps_ret.
  - apply steps_bind.
    + apply Hbody; [left | apply R_refl].
    + intros _ w' _ Hw'. apply IH. intros y w'' Hy Hw''.
      apply Hbody; [by right | by eapply R_trans].
Qed.

End Steps.

(** Proves [steps R m w] for a computation built from the primitives, by
    sequencing and case analysis; [prim] closes the primitives. *)
Ltac steps_go Hrefl Htrans prim :=
  repeat first
    [ apply (steps_ret _ Hrefl)
    | apply (steps_getFs _ Hrefl)
    | apply (steps_panic _ Hrefl)
    | prim
    | apply (steps_bind _ Htrans); [| intros ? ? ? ?]
    | match goal with
      | |- steps _ (match ?x with _ => _ end) _ => destruct x eqn:?
      end ].

(** ** The trace and the log only grow *)

Section TraceFacts.

Lemma grows_refl (w : World) : grows w w.
Proof. by unfold grows. Qed.

Lemma grows_trans (a b c : World) : grows a b -> grows b c -> grows a c.
Proof. unfold grows. intros [? ?] [? ?]. split; by etrans. Qed.

Lemma grows_log (line : string) (w : World) : steps grows (logPrint line) w.
Proof. unfold steps, grows. simpl. split; [done | by apply prefix_app_r]. Qed.

Lemma grows_fatal {A} (line : string) (w : World) : steps grows (@logFatal A line) w.
Proof. unfold steps, grows. simpl. split; [done | by apply prefix_app_r]. Qed.

Lemma grows_call (ev : Event) (w : World) : steps grows (call ev) w.
Proof. unfold steps, grows. simpl. split; [by apply prefix_app_r | done]. Qed.

Lemma grows_modifyFs (f : gmap string string -> gmap string string) (w : World) :
  steps grows (modifyFs f) w.
Proof. by unfold steps, grows. Qed.

Ltac trace_go :=
  steps_go grows_refl grows_trans
    ltac:(first [ apply grows_log | apply grows_fatal
                | apply grows_call | apply grows_modifyFs ]).

(** A call made first stays in the trace of whatever follows. *)
Lemma call_recorded {A} (ev : Event) (k : nat -> M A) (w : World) :
  (forall t w', steps grows (k t) w') ->
  ev ∈ trace (finalWorld ((call ev ≫= k) w)).
Proof.
  intros Hk. unfold mbind, M_bind, bind, call.
  destruct (Hk (clock w) (afterCall ev w)) as [[rest Hrest] _].
  rewrite Hrest. simpl. set_solver.
Qed.

Lemma recorded_bind {A B} (ev : Event) (m : M A) (k : A -> M B) (w : World) :
  ev ∈ trace (finalWorld (m w)) ->
  (forall a w', steps grows (k a) w') ->
  ev ∈ trace (finalWorld ((m ≫= k) w)).
Proof.
  intros Hm Hk. unfold mbind, M_bind, bind.
  destruct (m w) as [a w'| w' | w']; simpl in *; [|done..].
  destruct (Hk a w') as [[rest Hrest] _]. rewrite Hrest. set_solver.
Qed.

Variable out : Outside.

Lemma grows_downloadEntry (desc : string) (entry : YtEntry) (dst : string) (w : World) :
  steps grows (downloadEntry out desc entry dst) w.
Proof.
  unfold downloadEntry, downloadAudio, recodeAudio, combinedOutput, osRemove, osRename.
  trace_go.
Qed.

(** Once the entry is past the readiness gate the downloader is run. *)
Lemma downloadEntry_downloads (desc : string) (entry : YtEntry) (dst : string)
    (w : World) :
  EvDownload (VideoId entry) ∈ trace (finalWorld (downloadEntry out desc entry dst w)).
Proof.
  unfold downloadEntry.
  change ((logPrint ("downloading " ++ desc) ≫= ?k) w)
    with (k tt (withLog ("downloading " ++ desc) w)).
  cbv beta. apply recorded_bind.
  - unfold downloadAudio. apply recorded_bind.
    + unfold combinedOutput. apply call_recorded. intros. trace_go.
    + intros [o err] w'. unfold osRemove. trace_go.
  - intros [fileDown err] w'.
    unfold recodeAudio, combinedOutput, osRemove, osRename. trace_go.
Qed.

End TraceFacts.

(** ** Feed retrieval *)

Section ReadFeedFacts.

Variable lib : Lib.
Variable out : Outside.

Local Abbreviation feedUrl channelId :=
  ("https://www.youtube.com/feeds/videos.xml?channel_id=" ++ channelId).

(** Every way [readFeed] returns, by what the network call gave. *)
Lemma readFeed_cases (channelId : string) (w : World) :
  newRequestErr lib (feedUrl channelId) = None ->
  exists data err,
    readFeed lib out channelId w
    = Ret (data, err) (afterCall (EvHttpGet (feedUrl channelId)) w)
    /\ match clientDo out (feedUrl channelId) (clock w) with
       | inl e => data = None /\ err = Some e
       | inr res =>
           if (StatusCode res =? StatusOK)%N then
             match Body res with
             | (body, None) => data = Some body /\ err = None
             | (_, Some _) => data = None /\ err = None
             end
           else data = None /\ err <> None
       end.
Proof.
  intros Hreq. unfold readFeed. rewrite Hreq. run. simpl.
  destruct (clientDo out _ (clock w)) as [e|res]; [by eauto|].
  destruct (StatusCode res =? StatusOK)%N; simpl; [|by eauto].
  destruct (Body res) as [body [e|]]; by eauto.
Qed.

Lemma readFeed_bad_request (channelId : string) (w : World) (e : error) :
  newRequestErr lib (feedUrl channelId) = Some e ->
  readFeed lib out channelId w = Exit (withLog (Error e) w).
Proof. intros Hreq. unfold readFeed. by rewrite Hreq. Qed.

(** [readFeed] changes no file and runs no tool. *)
Lemma readFeed_world (channelId : string) (w : World) :
  let w' := finalWorld (readFeed lib out channelId w) in
  fs w' = fs w /\ invocations (trace w') = invocations (trace w).
Proof.
  unfold readFeed. destruct (newRequestErr lib _); [done|]. run. simpl.
  assert (Hinv : invocations (trace w ++ [EvHttpGet (feedUrl channelId)])
                 = invocations (trace w)).
  { unfold invocations. rewrite List.filter_app. simpl. apply app_nil_r. }
  destruct (clientDo out _ (clock w)) as [e|res]; [done|].
  destruct (negb _); [done|]. by destruct (Body res) as [body [e|]].
Qed.

End ReadFeedFacts.

(** C5, where the code departs from the claim: when the request succeeds
    with status 200 and reading the body fails, [readFeed] returns a nil
    document together with a nil error, because the error of
    [ioutil.ReadAll] is bound to a new variable of the inner block and
    the final [return nil, err] reads the outer one, which is nil.  The
    caller then takes the retrieval for a success and parses no bytes,
    and when the decoder rejects the empty input the process exits. *)
Theorem C5_body_read_failure_returns_nil_nil (lib : Lib) (out : Outside)
    (channelId : string) (w : World) (res : Response) (body : string) (e : error) :
  let url := "https://www.youtube.com/feeds/videos.xml?channel_id=" ++ channelId in
  newRequestErr lib url = None ->
  clientDo out url (clock w) = inr res ->
  StatusCode res = StatusOK ->
  Body res = (body, Some e) ->
  readFeed lib out channelId w = Ret (None, None) (afterCall (EvHttpGet url) w)
  /\ forall (feed : ConfFeed) (e' : error),
       ChannelId feed = channelId ->
       xmlUnmarshal lib "" = inl e' ->
       updateFeed lib out feed w
       = Exit (withLog (Error e') (afterCall (EvHttpGet url) w)).
Proof.
  intros url Hreq Hdo Hstatus Hbody.
  assert (Hread : readFeed lib out channelId w
                  = Ret (None, None) (afterCall (EvHttpGet url) w)).
  { unfold readFeed. fold url. rewrite Hreq. run. simpl.
    rewrite Hdo, Hstatus, Hbody. reflexivity. }
  split; [exact Hread|].
  intros feed e' Hch Hxml. unfold updateFeed. rewrite Hch.
  rewrite (bind_ret _ _ _ _ _ Hread).
  erewrite bind_exit; [reflexivity|].
  by apply parseFeed_malformed.
Qed.

(** C5, witness: a response with status 200 whose body breaks off. *)
Lemma C5_body_read_failure_witness :
  let lib := Sample.lib [] in
  let out := Sample.outside (Sample.net1 Sample.cut) []
               (Sample.failed "") (Sample.failed "") (Sample.failed "") in
  let w := Sample.world [] in
  readFeed lib out "chan1" w
  = Ret (None, None) (afterCall (EvHttpGet (Sample.feedUrl "chan1")) w)
  /\ forall (feed : ConfFeed) (e' : error),
       ChannelId feed = "chan1" ->
       xmlUnmarshal lib "" = inl e' ->
       updateFeed lib out feed w
       = Exit (withLog (Error e') (afterCall (EvHttpGet (Sample.feedUrl "chan1")) w)).
Proof.
  exact (C5_body_read_failure_returns_nil_nil (Sample.lib [])
           (Sample.outside (Sample.net1 Sample.cut) []
              (Sample.failed "") (Sample.failed "") (Sample.failed ""))
           "chan1" (Sample.world [])
           {| StatusCode := 200; Status := "200 OK";
              Body := ("<fee", Some (errorString "unexpected EOF")) |}
           "<fee" (errorString "unexpected EOF")
           eq_refl eq_refl eq_refl eq_refl).
Defined.

(** ** The readiness probe *)

Section ReadinessFacts.

Variable out : Outside.

Lemma isVideoReady_run (videoId : string) (w : World) :
  let r := probeRun out videoId (clock w) in
  exists ready : bool,
    isVideoReady out videoId w = Ret ready (afterCall (EvProbe videoId) w)
    /\ (ready = true
        <-> cmdErr r = None
            /\ (occursIn "not_live" (cmdOut r) \/ occursIn "was_live" (cmdOut r))).
Proof.
  unfold isVideoReady, combinedOutput, occursIn. run. simpl.
  destruct (cmdErr (probeRun out videoId (clock w))) as [e|].
  - exists false. split; [done|]. split; [done | by intros [? _]].
  - eexists. split; [done|].
    rewrite orb_true_iff, !Contains_spec. tauto.
Qed.

Lemma fetchEntry_gate (feed : ConfFeed) (entry : YtEntry) (dst : string) (w : World) :
  let desc := Name feed ++ " " ++ VideoId entry in
  let w1 := withLog ("found new video " ++ desc) w in
  forall ready : bool,
    isVideoReady out (VideoId entry) w1
    = Ret ready (afterCall (EvProbe (VideoId entry)) w1) ->
    fetchEntry out feed entry dst w
    = if ready then downloadEntry out desc entry dst (afterCall (EvProbe (VideoId entry)) w1)
      else Ret tt (withLog (desc ++ " not ready, skipped")
                     (afterCall (EvProbe (VideoId entry)) w1)).
Proof.
  intros desc w1 ready Hready. unfold fetchEntry. fold desc.
  change ((logPrint ("found new video " ++ desc) ≫= ?k) w) with (k tt w1).
  cbv beta. rewrite (bind_ret _ _ _ _ _ Hready). by destruct ready.
Qed.

End ReadinessFacts.

(** C7: once the probe has ended [isVideoReady] returns, and it returns
    true exactly when the invocation succeeded and its output contains
    [not_live] or [was_live]; a failed invocation gives false, not an
    error.  An entry
    whose probe is not ready is deferred without running the downloader:
    so it is for a successful probe whose output contains [is_live] and
    neither ready marker.  A successful probe whose output contains
    [was_live] is ready and the entry goes on to the download. *)
Theorem C7_readiness_decision (out : Outside) (feed : ConfFeed) (entry : YtEntry)
    (dst : string) (w : World) :
  let videoId := VideoId entry in
  let desc := Name feed ++ " " ++ videoId in
  let r := probeRun out videoId (clock w) in
  let marker := occursIn "not_live" (cmdOut r) \/ occursIn "was_live" (cmdOut r) in
  let probed := afterCall (EvProbe videoId) (withLog ("found new video " ++ desc) w) in
  let deferred := Ret tt (withLog (desc ++ " not ready, skipped") probed) in
  (exists ready : bool,
      isVideoReady out videoId w = Ret ready (afterCall (EvProbe videoId) w)
      /\ (ready = true <-> cmdErr r = None /\ marker))
  /\ (cmdErr r <> None ->
      isVideoReady out videoId w = Ret false (afterCall (EvProbe videoId) w))
  /\ (cmdErr r <> None \/ ~ marker -> fetchEntry out feed entry dst w = deferred)
  /\ (cmdErr r = None -> occursIn "is_live" (cmdOut r) -> ~ marker ->
      isVideoReady out videoId w = Ret false (afterCall (EvProbe videoId) w)
      /\ fetchEntry out feed entry dst w = deferred
      /\ trace (finalWorld deferred) = (trace w ++ [EvProbe videoId])%list)
  /\ (cmdErr r = None -> occursIn "was_live" (cmdOut r) ->
      isVideoReady out videoId w = Ret true (afterCall (EvProbe videoId) w)
      /\ fetchEntry out feed entry dst w = downloadEntry out desc entry dst probed
      /\ EvDownload videoId ∈ trace (finalWorld (fetchEntry out feed entry dst w))).
Proof.
  intros videoId desc r marker probed deferred.
  destruct (isVideoReady_run out videoId w) as [ready [Hrun Hready]].
  fold r marker in Hready.
  pose proof (isVideoReady_run out videoId (withLog ("found new video " ++ desc) w))
    as [ready' [Hrun' Hready']].
  simpl in Hready'. fold videoId r marker in Hready'.
  assert (ready' = ready) as ->.
  { destruct ready, ready'; try done; [apply Hready' | symmetry]; tauto. }
  pose proof (fetchEntry_gate out feed entry dst w ready Hrun') as Hgate.
  fold videoId desc probed in Hgate.
  assert (Hnot : cmdErr r <> None \/ ~ marker -> ready = false).
  { destruct ready; [|done]. destruct Hready as [Hready _].
    specialize (Hready eq_refl). tauto. }
  split; [by exists ready|]. split; [|split; [|split]].
  - intros He. by rewrite <- (Hnot (or_introl He)).
  - intros H. by rewrite Hgate, (Hnot H).
  - intros He Hlive Hm. rewrite Hgate, Hrun, (Hnot (or_intror Hm)).
    done.
  - intros He Hwas.
    assert (ready = true) as -> by (apply Hready; unfold marker; tauto).
    split; [done|]. split; [done|]. rewrite Hgate. apply downloadEntry_downloads.
Qed.

(** C7, witness: a probe that prints [is_live] defers the entry, one
    that prints [was_live] lets the download start. *)
Lemma C7_readiness_decision_witness :
  let probing p := Sample.outside (Sample.net1 Sample.cut) [] p
                     (Sample.failed "ERROR") (Sample.failed "") in
  let feed := Sample.chan "one" "chan1" in
  let entry := Sample.entry "A" "vidA" in
  let dst := "audio/chan1/vidA.opus" in
  let w := Sample.world [] in
  trace (finalWorld (fetchEntry (probing (Sample.ran (Sample.line "is_live") None))
                       feed entry dst w))
  = [EvProbe "vidA"]
  /\ EvDownload "vidA"
     ∈ trace (finalWorld (fetchEntry (probing (Sample.ran (Sample.line "was_live") None))
                            feed entry dst w)).
Proof.
  intros probing feed entry dst w. split.
  - pose proof (C7_readiness_decision
                  (probing (Sample.ran (Sample.line "is_live") None)) feed entry dst w)
      as (_ & _ & _ & Hlive & _).
    destruct Hlive as (_ & Heq & Htrace).
    + reflexivity.
    + by exists "", (String "010" "").
    + intros [H|H]; apply Contains_spec in H; discriminate H.
    + rewrite Heq. exact Htrace.
  - pose proof (C7_readiness_decision
                  (probing (Sample.ran (Sample.line "was_live") None)) feed entry dst w)
      as (_ & _ & _ & _ & Hwas).
    destruct Hwas as (_ & _ & Hin).
    + reflexivity.
    + by exists "", (String "010" "").
    + exact Hin.
Defined.

(** ** One entry of a sweep *)

Section UpdateEntryFacts.

Variable out : Outside.

Lemma osStat_fault (name : string) (w : World) (errno : string) :
  statFault out name (clock w) = Some errno ->
  osStat out name w
  = Ret (None, Some (PathErrOther "stat" name errno)) (afterCall (EvStat name) w).
Proof. intros H. unfold osStat. run. simpl. by rewrite H. Qed.

Lemma osStat_found (name : string) (w : World) (content : string) :
  statFault out name (clock w) = None -> fs w !! name = Some content ->
  osStat out name w
  = Ret (Some (N.of_nat (String.length content)), None) (afterCall (EvStat name) w).
Proof. intros H1 H2. unfold osStat. run. simpl. by rewrite H1, H2. Qed.

Lemma osStat_missing (name : string) (w : World) :
  statFault out name (clock w) = None -> fs w !! name = None ->
  osStat out name w
  = Ret (None, Some (PathErrNotExist "stat" name)) (afterCall (EvStat name) w).
Proof. intros H1 H2. unfold osStat. run. simpl. by rewrite H1, H2. Qed.

(** [os.Stat] reports no error only for a file that is there. *)
Lemma osStat_ok_inv (name : string) (w w' : World) (info : option N) :
  osStat out name w = Ret (info, None) w' ->
  w' = afterCall (EvStat name) w /\ statFault out name (clock w) = None
  /\ is_Some (fs w !! name).
Proof.
  unfold osStat. run. simpl.
  destruct (statFault out name (clock w)); [by intros [=]|].
  destruct (fs w !! name); [|by intros [=]].
  intros [= _ <-]. eauto.
Qed.

Variable feed : ConfFeed.
Variable entry : YtEntry.

Local Abbreviation dst := (getAudioFileName (ChannelId feed) (VideoId entry)).
Local Abbreviation desc := (Name feed ++ " " ++ VideoId entry).

(** Line 144: an existence check without error ends the entry. *)
Lemma updateEntry_exists (w w' : World) (info : option N) :
  osStat out dst w = Ret (info, None) w' ->
  updateEntry out feed entry w = Ret tt (afterCall (EvStat dst) w).
Proof.
  intros H. unfold updateEntry. rewrite (bind_ret _ _ _ _ _ H).
  by destruct (osStat_ok_inv _ _ _ _ H) as [-> _].
Qed.

(** Lines 144-147: any error of the existence check, not-found or not,
    sends the entry down the pipeline. *)
Lemma updateEntry_stat_error (w : World) (info : option N) (e : error) :
  osStat out dst w = Ret (info, Some e) (afterCall (EvStat dst) w) ->
  updateEntry out feed entry w = fetchEntry out feed entry dst (afterCall (EvStat dst) w).
Proof. intros H. unfold updateEntry. by rewrite (bind_ret _ _ _ _ _ H). Qed.

(** The pipeline starts with its log line and the readiness probe. *)
Lemma fetchEntry_starts (fileDst : string) (w : World) :
  let w' := finalWorld (fetchEntry out feed entry fileDst w) in
  (exists calls, trace w' = (trace w ++ EvProbe (VideoId entry) :: calls)%list)
  /\ (exists lines,
        logged w' = (logged w ++ ("found new video " ++ desc)%string :: lines)%list).
Proof.
  destruct (isVideoReady_run out (VideoId entry)
              (withLog ("found new video " ++ desc) w)) as [ready [Hrun _]].
  rewrite (fetchEntry_gate out feed entry fileDst w ready Hrun).
  destruct ready.
  - destruct (grows_downloadEntry out desc entry fileDst
                (afterCall (EvProbe (VideoId entry))
                   (withLog ("found new video " ++ desc) w)))
      as [[calls Hc] [lines Hl]].
    simpl in *. split.
    + exists calls. by rewrite Hc, <- app_assoc.
    + exists lines. by rewrite Hl, <- app_assoc.
  - simpl. split; [by exists [] | eexists].
    by rewrite <- app_assoc.
Qed.

End UpdateEntryFacts.

(** C4, as the code has it: a document the decoder rejects makes
    [parseFeed] log the error and exit the process ([log.Fatal]); the
    sweep ends there, and the channels after it are not polled. *)
Theorem C4_malformed_feed_exits (lib : Lib) (out : Outside) (feed : ConfFeed)
    (rest : list ConfFeed) (address : string) (w : World) (res : Response)
    (body : string) (e : error) :
  let url := "https://www.youtube.com/feeds/videos.xml?channel_id=" ++ ChannelId feed in
  let fetched := afterCall (EvHttpGet url) w in
  newRequestErr lib url = None ->
  clientDo out url (clock w) = inr res ->
  StatusCode res = StatusOK ->
  Body res = (body, None) ->
  xmlUnmarshal lib body = inl e ->
  parseFeed lib (Some body) (Keywords feed) fetched = Exit (withLog (Error e) fetched)
  /\ updateFeed lib out feed w = Exit (withLog (Error e) fetched)
  /\ doUpdate lib out {| Feeds := feed :: rest; ServerAddress := address |} w
     = Exit (withLog (Error e) fetched).
Proof.
  intros url fetched Hreq Hdo Hstatus Hbody Hxml.
  assert (Hparse : parseFeed lib (Some body) (Keywords feed) fetched
                   = Exit (withLog (Error e) fetched))
    by (by apply parseFeed_malformed).
  assert (Hread : readFeed lib out (ChannelId feed) w = Ret (Some body, None) fetched).
  { unfold readFeed. fold url. rewrite Hreq. run. simpl.
    rewrite Hdo, Hstatus, Hbody. reflexivity. }
  assert (Hfeed : updateFeed lib out feed w = Exit (withLog (Error e) fetched)).
  { unfold updateFeed. rewrite (bind_ret _ _ _ _ _ Hread).
    by rewrite (bind_exit _ _ _ _ Hparse). }
  split; [done|]. split; [done|].
  unfold doUpdate. simpl. by rewrite (bind_exit _ _ _ _ Hfeed).
Qed.

(** C4, witness: the document of the first of two channels is cut short. *)
Lemma C4_malformed_feed_exits_witness :
  let lib := Sample.lib [("<feed>AB</feed>", Sample.feedAB)] in
  let out := Sample.outside (Sample.net1 (Sample.ok "<feed>")) []
               (Sample.failed "") (Sample.failed "") (Sample.failed "") in
  let w := Sample.world [] in
  let fetched := afterCall (EvHttpGet (Sample.feedUrl "chan1")) w in
  let e := errorString "XML syntax error: unexpected EOF" in
  parseFeed lib (Some "<feed>") None fetched = Exit (withLog (Error e) fetched)
  /\ updateFeed lib out (Sample.chan "one" "chan1") w = Exit (withLog (Error e) fetched)
  /\ doUpdate lib out
       (Sample.conf [Sample.chan "one" "chan1"; Sample.chan "two" "chan2"]) w
     = Exit (withLog (Error e) fetched).
Proof.
  exact (C4_malformed_feed_exits
           (Sample.lib [("<feed>AB</feed>", Sample.feedAB)])
           (Sample.outside (Sample.net1 (Sample.ok "<feed>")) []
              (Sample.failed "") (Sample.failed "") (Sample.failed ""))
           (Sample.chan "one" "chan1") [Sample.chan "two" "chan2"] "127.0.0.1:8080"
           (Sample.world [])
           {| StatusCode := 200; Status := "200 OK"; Body := ("<feed>", None) |}
           "<feed>" (errorString "XML syntax error: unexpected EOF")
           eq_refl eq_refl eq_refl eq_refl eq_refl).
Defined.

(** C4, counterexample: with the first channel's document cut short the
    sweep exits the process after one request; the second channel is not
    polled, and nothing is skipped and resumed. *)
Lemma C4_process_exits_counterexample :
  let lib := Sample.lib [("<feed>AB</feed>", Sample.feedAB)] in
  let out := Sample.outside (Sample.net1 (Sample.ok "<feed>")) []
               (Sample.failed "") (Sample.failed "") (Sample.failed "") in
  let r := doUpdate lib out
             (Sample.conf [Sample.chan "one" "chan1"; Sample.chan "two" "chan2"])
             (Sample.world []) in
  exited r = true
  /\ returned r = false
  /\ trace (finalWorld r) = [EvHttpGet (Sample.feedUrl "chan1")]
  /\ logged (finalWorld r) = ["XML syntax error: unexpected EOF"].
Proof. by vm_compute. Qed.

(** C6, as the code has it: the existence check distinguishes no errors.
    When [os.Stat] fails with an error other than not-found the entry is
    not skipped and the error is not logged: the entry is taken for a new
    video, exactly as when the file is missing, the next log line is
    [found new video] and the readiness probe is run. *)
Theorem C6_stat_error_means_new_video (out : Outside) (feed : ConfFeed)
    (entry : YtEntry) (w : World) (errno : string) :
  let dst := getAudioFileName (ChannelId feed) (VideoId entry) in
  let desc := Name feed ++ " " ++ VideoId entry in
  let checked := afterCall (EvStat dst) w in
  let r := updateEntry out feed entry w in
  statFault out dst (clock w) = Some errno ->
  osStat out dst w = Ret (None, Some (PathErrOther "stat" dst errno)) checked
  /\ isNotExist (PathErrOther "stat" dst errno) = false
  /\ r = fetchEntry out feed entry dst checked
  /\ (exists calls,
        trace (finalWorld r)
        = (trace w ++ EvStat dst :: EvProbe (VideoId entry) :: calls)%list)
  /\ (exists lines,
        logged (finalWorld r)
        = (logged w ++ ("found new video " ++ desc)%string :: lines)%list)
  /\ (forall w0 : World,
        statFault out dst (clock w0) = None -> fs w0 !! dst = None ->
        updateEntry out feed entry w0
        = fetchEntry out feed entry dst (afterCall (EvStat dst) w0)).
Proof.
  intros dst desc checked r Hfault.
  pose proof (osStat_fault out dst w errno Hfault) as Hstat.
  assert (Hr : r = fetchEntry out feed entry dst checked)
    by (eapply updateEntry_stat_error; exact Hstat).
  destruct (fetchEntry_starts out feed entry dst checked) as [[calls Hc] [lines Hl]].
  split; [done|]. split; [done|]. split; [done|]. split; [|split].
  - exists calls. rewrite Hr, Hc. simpl. by rewrite <- app_assoc.
  - exists lines. by rewrite Hr, Hl.
  - intros w0 H0 Hnone. eapply updateEntry_stat_error.
    by apply osStat_missing.
Qed.

(** C6, witness: the channel directory cannot be searched. *)
Lemma C6_stat_error_means_new_video_witness :
  let out := Sample.outside (Sample.net1 Sample.cut) ["audio/chan1/vidA.opus"]
               (Sample.ran (Sample.line "not_live") None)
               (Sample.ran "" (Some "raw")) (Sample.ran "" (Some "opus")) in
  let feed := Sample.chan "one" "chan1" in
  let entry := Sample.entry "A" "vidA" in
  let w := Sample.world [] in
  let r := updateEntry out feed entry w in
  r = fetchEntry out feed entry "audio/chan1/vidA.opus"
        (afterCall (EvStat "audio/chan1/vidA.opus") w)
  /\ exists calls,
       trace (finalWorld r)
       = EvStat "audio/chan1/vidA.opus" :: EvProbe "vidA" :: calls.
Proof.
  intros out feed entry w r.
  destruct (C6_stat_error_means_new_video out feed entry w "permission denied" eq_refl)
    as (_ & _ & Hr & Hcalls & _).
  split; [exact Hr | exact Hcalls].
Defined.

(** C6, counterexample: [os.Stat] is denied at the canonical path; the
    entry is not skipped but probed, downloaded and transcoded, the
    failure of the check is not logged, and the process exits when the
    rename is denied as well. *)
Lemma C6_not_skipped_counterexample :
  let out := Sample.outside (Sample.net1 Sample.cut) ["audio/chan1/vidA.opus"]
               (Sample.ran (Sample.line "not_live") None)
               (Sample.ran "" (Some "raw")) (Sample.ran "" (Some "opus")) in
  let w := Sample.world [] in
  let r := updateEntry out (Sample.chan "one" "chan1") (Sample.entry "A" "vidA") w in
  osStat out "audio/chan1/vidA.opus" w
  = Ret (None, Some (PathErrOther "stat" "audio/chan1/vidA.opus" "permission denied"))
      (afterCall (EvStat "audio/chan1/vidA.opus") w)
  /\ trace (finalWorld r)
     = [EvStat "audio/chan1/vidA.opus"; EvProbe "vidA"; EvDownload "vidA";
        EvTranscode "vidA" "tmp.opus"; EvRename "tmp.opus" "audio/chan1/vidA.opus"]
  /\ logged (finalWorld r)
     = ["found new video one vidA"; "downloading one vidA"; "one vidA downloaded";
        "recoding one vidA";
        "rename tmp.opus audio/chan1/vidA.opus: permission denied"]
  /\ exited r = true.
Proof. by vm_compute. Qed.

(** ** A sweep over committed artifacts *)

Section IdleFacts.

Lemma idle_refl (w : World) : idle w w.
Proof. by unfold idle. Qed.

Lemma idle_trans (a b c : World) : idle a b -> idle b c -> idle a c.
Proof. unfold idle. intros [-> ->] [-> ->]. done. Qed.

Lemma invocations_snoc (t : list Event) (ev : Event) :
  invocations (t ++ [ev])
  = (invocations t ++ (if invocation ev then [ev] else []))%list.
Proof. unfold invocations. rewrite List.filter_app. simpl. by destruct (invocation ev). Qed.

Lemma idle_log (line : string) (w : World) : steps idle (logPrint line) w.
Proof. by unfold steps, idle. Qed.

Lemma idle_fatal {A} (line : string) (w : World) : steps idle (@logFatal A line) w.
Proof. by unfold steps, idle. Qed.

Lemma idle_call (ev : Event) (w : World) :
  invocation ev = false -> steps idle (call ev) w.
Proof.
  intros Hev. unfold steps, idle. simpl.
  rewrite invocations_snoc, Hev. by rewrite app_nil_r.
Qed.

Variable lib : Lib.
Variable out : Outside.

Lemma idle_readFeed (channelId : string) (w : World) :
  steps idle (readFeed lib out channelId) w.
Proof. apply readFeed_world. Qed.

Lemma parseFeed_inv (data : option string) (keywords : option (list string))
    (w w' : World) (f : YtFeed) :
  parseFeed lib data keywords w = Ret f w' ->
  w' = w /\ exists ytfeed,
    xmlUnmarshal lib (bytesOf data) = inr ytfeed
    /\ f = filterFeed (ToLower lib) ytfeed keywords.
Proof.
  unfold parseFeed. destruct (xmlUnmarshal lib (bytesOf data)) as [e|ytfeed].
  - by intros [=].
  - intros [= <- <-]. eauto.
Qed.

Lemma idle_parseFeed (data : option string) (keywords : option (list string))
    (w : World) :
  steps idle (parseFeed lib data keywords) w.
Proof.
  unfold parseFeed. destruct (xmlUnmarshal lib (bytesOf data)).
  - apply idle_fatal.
  - apply idle_refl.
Qed.

(** The entries of a loop over a fetched and parsed feed are polled. *)
Lemma polled_intro (feed : ConfFeed) (w0 w1 w2 w3 : World) (data : option string)
    (f : YtFeed) (e : YtEntry) :
  readFeed lib out (ChannelId feed) w0 = Ret (data, None) w1 ->
  parseFeed lib data (Keywords feed) w2 = Ret f w3 ->
  e ∈ Entries f ->
  polled lib out feed e.
Proof.
  intros Hread Hparse He.
  destruct (parseFeed_inv _ _ _ _ _ Hparse) as [_ [ytfeed [Hxml ->]]].
  by exists w0, w1, data, ytfeed.
Qed.

(** When every entry the sweep may see has its artifact and the
    existence check reaches it, the sweep changes no file and runs no
    tool. *)
Lemma doUpdate_idle (conf : Conf) (w : World) :
  (forall feed e, feed ∈ Feeds conf -> polled lib out feed e ->
     is_Some (fs w !! getAudioFileName (ChannelId feed) (VideoId e))
     /\ forall t, statFault out (getAudioFileName (ChannelId feed) (VideoId e)) t = None) ->
  steps idle (doUpdate lib out conf) w.
Proof.
  intros Hall. unfold doUpdate.
  apply (steps_forRange _ idle_refl idle_trans). intros feed w1 Hfeed Hw1.
  unfold updateFeed. apply (steps_bind _ idle_trans); [apply idle_readFeed|].
  intros [data [e|]] w2 Hread Hw2; [apply idle_log|].
  apply (steps_bind _ idle_trans); [apply idle_parseFeed|].
  intros f w3 Hparse Hw3.
  apply (steps_forRange _ idle_refl idle_trans). intros e w4 He Hw4.
  destruct (Hall feed e Hfeed (polled_intro _ _ _ _ _ _ _ _ Hread Hparse He))
    as [[content Hfile] Hstat].
  assert (Hfs : fs w4 = fs w).
  { destruct Hw1 as [H1 _], Hw2 as [H2 _], Hw3 as [H3 _], Hw4 as [H4 _]. congruence. }
  unfold steps.
  erewrite updateEntry_exists.
  - apply (idle_call (EvStat _)). reflexivity.
  - apply osStat_found; [apply Hstat | by rewrite Hfs].
Qed.

End IdleFacts.

(** ** The files a sweep leaves alone *)

Section FrameFacts.

(** A path inside a directory, as the canonical paths of plain
    identifiers are. *)
Variable p : string.
Hypothesis p_nested : GoPath.noSeparator p = false.

Lemma keepsFile_refl (w : World) : keepsFile p w w.
Proof. by unfold keepsFile. Qed.

Lemma keepsFile_trans (a b c : World) :
  keepsFile p a b -> keepsFile p b c -> keepsFile p a c.
Proof. unfold keepsFile. congruence. Qed.

Lemma keepsFile_log (line : string) (w : World) : steps (keepsFile p) (logPrint line) w.
Proof. by unfold steps, keepsFile. Qed.

Lemma keepsFile_fatal {A} (line : string) (w : World) :
  steps (keepsFile p) (@logFatal A line) w.
Proof. by unfold steps, keepsFile. Qed.

Lemma keepsFile_call (ev : Event) (w : World) : steps (keepsFile p) (call ev) w.
Proof. by unfold steps, keepsFile. Qed.

Lemma keepsFile_modifyFs (f : gmap string string -> gmap string string) (w : World) :
  f (fs w) !! p = fs w !! p -> steps (keepsFile p) (modifyFs f) w.
Proof. by unfold steps, keepsFile. Qed.

Ltac frame_go :=
  steps_go keepsFile_refl keepsFile_trans
    ltac:(first [ apply keepsFile_log | apply keepsFile_fatal | apply keepsFile_call
                | apply keepsFile_modifyFs;
                  by rewrite ?lookup_insert_ne, ?lookup_delete_ne by done ]).

Lemma plain_not_nested (name : string) : GoPath.noSeparator name = true -> name ≠ p.
Proof. intros Hname ->. congruence. Qed.

Variable out : Outside.

Lemma keepsFile_osStat (name : string) (w : World) :
  steps (keepsFile p) (osStat out name) w.
Proof. unfold osStat. frame_go. Qed.

Lemma keepsFile_isVideoReady (videoId : string) (w : World) :
  steps (keepsFile p) (isVideoReady out videoId) w.
Proof. unfold isVideoReady, combinedOutput. frame_go. Qed.

Lemma downloadAudio_file (videoId : string) (w w' : World) (file : string)
    (err : option error) :
  downloadAudio out videoId w = Ret (file, err) w' -> file = videoId.
Proof.
  unfold downloadAudio, combinedOutput, osRemove. run. simpl.
  repeat case_match; by intros [=].
Qed.

Lemma keepsFile_osRemove (name : string) (w : World) :
  name ≠ p -> steps (keepsFile p) (osRemove name) w.
Proof. intros Hname. unfold osRemove. frame_go. Qed.

Lemma keepsFile_downloadAudio (videoId : string) (w : World) :
  videoId ≠ p -> steps (keepsFile p) (downloadAudio out videoId) w.
Proof. intros Hvid. unfold downloadAudio, combinedOutput, osRemove. frame_go. Qed.

Lemma keepsFile_recodeAudio (fileIn fileOut : string) (w : World) :
  fileOut ≠ p -> steps (keepsFile p) (recodeAudio out fileIn fileOut) w.
Proof.
  intros Hout. pose proof (plain_not_nested "tmp.opus" eq_refl) as Htmp.
  unfold recodeAudio, combinedOutput, osRename. frame_go.
Qed.

(** The download, the transcode and the commit write and remove only
    the download file, [tmp.opus] and the destination. *)
Lemma keepsFile_downloadEntry (desc : string) (entry : YtEntry) (dst : string)
    (w : World) :
  GoPath.noSeparator (VideoId entry) = true -> dst ≠ p ->
  steps (keepsFile p) (downloadEntry out desc entry dst) w.
Proof.
  intros Hvid Hdst.
  pose proof (plain_not_nested _ Hvid) as Hvid'.
  unfold downloadEntry.
  apply (steps_bind _ keepsFile_trans); [apply keepsFile_log|]. intros _ w1 _ _.
  apply (steps_bind _ keepsFile_trans); [by apply keepsFile_downloadAudio|].
  intros [fileDown err] w2 Hdl _. apply downloadAudio_file in Hdl as ->.
  destruct err; [apply keepsFile_log|].
  apply (steps_bind _ keepsFile_trans); [apply keepsFile_log|]. intros _ w3 _ _.
  apply (steps_bind _ keepsFile_trans); [apply keepsFile_log|]. intros _ w4 _ _.
  apply (steps_bind _ keepsFile_trans); [by apply keepsFile_recodeAudio|].
  intros _ w5 _ _.
  apply (steps_bind _ keepsFile_trans); [by apply keepsFile_osRemove|].
  intros _ w6 _ _. apply keepsFile_log.
Qed.

Lemma keepsFile_fetchEntry (feed : ConfFeed) (entry : YtEntry) (dst : string)
    (w : World) :
  GoPath.noSeparator (VideoId entry) = true -> dst ≠ p ->
  steps (keepsFile p) (fetchEntry out feed entry dst) w.
Proof.
  intros Hvid Hdst. unfold fetchEntry.
  apply (steps_bind _ keepsFile_trans); [apply keepsFile_log|]. intros _ w1 _ _.
  apply (steps_bind _ keepsFile_trans); [apply keepsFile_isVideoReady|].
  intros ready w2 _ _. destruct ready; simpl.
  - by apply keepsFile_downloadEntry.
  - apply keepsFile_log.
Qed.

(** An entry leaves the file at [p] alone: its own artifact because the
    existence check finds it, any other because nothing writes there. *)
Lemma keepsFile_updateEntry (feed : ConfFeed) (entry : YtEntry) (w : World) :
  GoPath.noSeparator (VideoId entry) = true ->
  statFault out p (clock w) = None ->
  is_Some (fs w !! p) ->
  steps (keepsFile p) (updateEntry out feed entry) w.
Proof.
  intros Hvid Hstat [content Hfile].
  destruct (decide (getAudioFileName (ChannelId feed) (VideoId entry) = p)) as [Heq|Hne].
  - unfold steps. erewrite updateEntry_exists.
    + apply keepsFile_call.
    + rewrite Heq. by apply osStat_found.
  - unfold updateEntry.
    apply (steps_bind _ keepsFile_trans); [apply keepsFile_osStat|].
    intros [info [e|]] w1 _ _.
    + by apply keepsFile_fetchEntry.
    + apply keepsFile_refl.
Qed.

Variable lib : Lib.

Lemma keepsFile_readFeed (channelId : string) (w : World) :
  steps (keepsFile p) (readFeed lib out channelId) w.
Proof.
  unfold steps, keepsFile. by destruct (readFeed_world lib out channelId w) as [-> _].
Qed.

Lemma keepsFile_parseFeed (data : option string) (keywords : option (list string))
    (w : World) :
  steps (keepsFile p) (parseFeed lib data keywords) w.
Proof.
  unfold steps, keepsFile. by destruct (idle_parseFeed lib data keywords w) as [-> _].
Qed.

Lemma keepsFile_doUpdate (conf : Conf) (w : World) :
  (forall feed e, feed ∈ Feeds conf -> polled lib out feed e ->
     GoPath.noSeparator (VideoId e) = true) ->
  (forall t, statFault out p t = None) ->
  is_Some (fs w !! p) ->
  steps (keepsFile p) (doUpdate lib out conf) w.
Proof.
  intros Hids Hstat Hfile. unfold doUpdate.
  apply (steps_forRange _ keepsFile_refl keepsFile_trans). intros feed w1 Hfeed Hw1.
  unfold updateFeed. apply (steps_bind _ keepsFile_trans); [apply keepsFile_readFeed|].
  intros [data [e|]] w2 Hread Hw2; [apply keepsFile_log|].
  apply (steps_bind _ keepsFile_trans); [apply keepsFile_parseFeed|].
  intros f w3 Hparse Hw3.
  apply (steps_forRange _ keepsFile_refl keepsFile_trans). intros e w4 He Hw4.
  apply keepsFile_updateEntry.
  - exact (Hids feed e Hfeed (polled_intro _ _ _ _ _ _ _ _ _ _ Hread Hparse He)).
  - apply Hstat.
  - unfold keepsFile in *. by rewrite Hw4, Hw3, Hw2, Hw1.
Qed.

End FrameFacts.

Lemma getAudioFileName_nested (channelId videoId : string) :
  GoPath.plainName channelId = true -> GoPath.noSeparator videoId = true ->
  GoPath.noSeparator (getAudioFileName channelId videoId) = false.
Proof.
  intros Hc Hv. by rewrite getAudioFileName_plain.
Qed.

(** ** A sweep never runs a tool for a video that is committed *)

Section SettledFacts.

Variable v : string.

Lemma silentAbout_refl (w : World) : silentAbout v w w.
Proof. by unfold silentAbout. Qed.

Lemma silentAbout_trans (a b c : World) :
  silentAbout v a b -> silentAbout v b c -> silentAbout v a c.
Proof. unfold silentAbout. congruence. Qed.

Lemma silentAbout_log (line : string) (w : World) :
  steps (silentAbout v) (logPrint line) w.
Proof. by unfold steps, silentAbout. Qed.

Lemma silentAbout_fatal {A} (line : string) (w : World) :
  steps (silentAbout v) (@logFatal A line) w.
Proof. by unfold steps, silentAbout. Qed.

Lemma silentAbout_modifyFs (f : gmap string string -> gmap string string) (w : World) :
  steps (silentAbout v) (modifyFs f) w.
Proof. by unfold steps, silentAbout. Qed.

Lemma silentAbout_call (ev : Event) (w : World) :
  concerns v ev = false -> steps (silentAbout v) (call ev) w.
Proof.
  intros Hev. unfold steps, silentAbout. simpl.
  rewrite List.filter_app. simpl. rewrite Hev. apply app_nil_r.
Qed.

Lemma concerns_other (videoId : string) :
  videoId ≠ v ->
  concerns v (EvProbe videoId) = false /\ concerns v (EvDownload videoId) = false
  /\ forall fileTmp, concerns v (EvTranscode videoId fileTmp) = false.
Proof. intros Hne. simpl. by rewrite (proj2 (String.eqb_neq _ _) Hne). Qed.

Ltac silent_go :=
  steps_go silentAbout_refl silentAbout_trans
    ltac:(first [ apply silentAbout_log | apply silentAbout_fatal
                | apply silentAbout_modifyFs
                | apply silentAbout_call; first [ reflexivity | assumption ] ]).

Variable out : Outside.

Lemma silentAbout_osStat (name : string) (w : World) :
  steps (silentAbout v) (osStat out name) w.
Proof. unfold osStat. silent_go. Qed.

Lemma silentAbout_osRemove (name : string) (w : World) :
  steps (silentAbout v) (osRemove name) w.
Proof. unfold osRemove. silent_go. Qed.

Lemma silentAbout_isVideoReady (videoId : string) (w : World) :
  videoId ≠ v -> steps (silentAbout v) (isVideoReady out videoId) w.
Proof.
  intros Hne. destruct (concerns_other _ Hne) as (Hprobe & _).
  unfold isVideoReady, combinedOutput. silent_go.
Qed.

Lemma silentAbout_downloadAudio (videoId : string) (w : World) :
  videoId ≠ v -> steps (silentAbout v) (downloadAudio out videoId) w.
Proof.
  intros Hne. destruct (concerns_other _ Hne) as (_ & Hdl & _).
  unfold downloadAudio, combinedOutput, osRemove. silent_go.
Qed.

Lemma silentAbout_recodeAudio (fileIn fileOut : string) (w : World) :
  fileIn ≠ v -> steps (silentAbout v) (recodeAudio out fileIn fileOut) w.
Proof.
  intros Hne. destruct (concerns_other _ Hne) as (_ & _ & Htr).
  pose proof (Htr "tmp.opus") as Htmp.
  unfold recodeAudio, combinedOutput, osRename. silent_go.
Qed.

Lemma silentAbout_fetchEntry (feed : ConfFeed) (entry : YtEntry) (dst : string)
    (w : World) :
  VideoId entry ≠ v -> steps (silentAbout v) (fetchEntry out feed entry dst) w.
Proof.
  intros Hne. unfold fetchEntry.
  apply (steps_bind _ silentAbout_trans); [apply silentAbout_log|]. intros _ w1 _ _.
  apply (steps_bind _ silentAbout_trans); [by apply silentAbout_isVideoReady|].
  intros ready w2 _ _. destruct ready; simpl; [|apply silentAbout_log].
  unfold downloadEntry.
  apply (steps_bind _ silentAbout_trans); [apply silentAbout_log|]. intros _ w3 _ _.
  apply (steps_bind _ silentAbout_trans); [by apply silentAbout_downloadAudio|].
  intros [fileDown err] w4 Hdl _. apply downloadAudio_file in Hdl as ->.
  destruct err; [apply silentAbout_log|].
  apply (steps_bind _ silentAbout_trans); [apply silentAbout_log|]. intros _ w5 _ _.
  apply (steps_bind _ silentAbout_trans); [apply silentAbout_log|]. intros _ w6 _ _.
  apply (steps_bind _ silentAbout_trans); [by apply silentAbout_recodeAudio|].
  intros _ w7 _ _.
  apply (steps_bind _ silentAbout_trans); [apply silentAbout_osRemove|].
  intros _ w8 _ _. apply silentAbout_log.
Qed.

Lemma silentAbout_updateEntry (feed : ConfFeed) (entry : YtEntry) (w : World) :
  VideoId entry ≠ v -> steps (silentAbout v) (updateEntry out feed entry) w.
Proof.
  intros Hne. unfold updateEntry.
  apply (steps_bind _ silentAbout_trans); [apply silentAbout_osStat|].
  intros [info [e|]] w1 _ _.
  - by apply silentAbout_fetchEntry.
  - apply silentAbout_refl.
Qed.

Variable lib : Lib.
Variable conf : Conf.

Local Abbreviation settled := (settled lib out conf v).

Lemma settled_refl (w : World) : settled w w.
Proof. split; [by intros | apply silentAbout_refl]. Qed.

Lemma settled_trans (a b c : World) : settled a b -> settled b c -> settled a c.
Proof.
  intros [Hf1 Hs1] [Hf2 Hs2]. split.
  - intros feed e Hfeed He Hv. unfold keepsFile in *.
    by rewrite (Hf2 feed e), (Hf1 feed e).
  - by eapply silentAbout_trans.
Qed.

(** A computation that changes no file and runs no tool. *)
Lemma settled_idle {A} (m : M A) (w : World) : steps idle m w -> steps settled m w.
Proof.
  unfold steps. intros [Hfs Hinv]. split.
  - intros feed e _ _ _. unfold keepsFile. by rewrite Hfs.
  - unfold silentAbout, invocations in *.
    assert (Hsub : forall t, List.filter (concerns v) t
                             = List.filter (concerns v) (List.filter invocation t)).
    { induction t as [|ev t IH]; simpl; [done|].
      destruct ev; simpl; rewrite ?IH; done. }
    by rewrite Hsub, Hinv, <- Hsub.
Qed.

Hypothesis plain_ids : forall feed e, feed ∈ Feeds conf -> polled lib out feed e ->
  GoPath.plainName (ChannelId feed) = true /\ GoPath.noSeparator (VideoId e) = true.
Hypothesis stat_works : forall path t, statFault out path t = None.

Lemma settled_updateEntry (feed : ConfFeed) (entry : YtEntry) (w0 w : World) :
  feed ∈ Feeds conf -> polled lib out feed entry ->
  (forall feed' e', feed' ∈ Feeds conf -> polled lib out feed' e' -> VideoId e' = v ->
     is_Some (fs w0 !! getAudioFileName (ChannelId feed') v)) ->
  settled w0 w ->
  steps settled (updateEntry out feed entry) w.
Proof.
  intros Hfeed He Hcommitted [Hkept _].
  assert (Hnow : forall feed' e', feed' ∈ Feeds conf -> polled lib out feed' e' ->
                   VideoId e' = v ->
                   is_Some (fs w !! getAudioFileName (ChannelId feed') v)).
  { intros feed' e' Hfeed' He' Hv. rewrite (Hkept feed' e' Hfeed' He' Hv). eauto. }
  destruct (decide (VideoId entry = v)) as [Hv|Hv].
  - destruct (Hnow feed entry Hfeed He Hv) as [content Hfile].
    apply settled_idle. unfold steps. erewrite updateEntry_exists.
    + apply (idle_call (EvStat _)). reflexivity.
    + apply osStat_found; [apply stat_works | by rewrite Hv].
  - split.
    + intros feed' e' Hfeed' He' Hv'.
      destruct (plain_ids feed' e' Hfeed' He') as [Hc Hid].
      apply keepsFile_updateEntry.
      * apply getAudioFileName_nested; [done | by rewrite <- Hv'].
      * by destruct (plain_ids feed entry Hfeed He).
      * apply stat_works.
      * by eapply Hnow.
    + by apply silentAbout_updateEntry.
Qed.

Lemma settled_doUpdate (w : World) :
  (forall feed e, feed ∈ Feeds conf -> polled lib out feed e -> VideoId e = v ->
     is_Some (fs w !! getAudioFileName (ChannelId feed) v)) ->
  steps settled (doUpdate lib out conf) w.
Proof.
  intros Hcommitted. unfold doUpdate.
  apply (steps_forRange _ settled_refl settled_trans). intros feed w1 Hfeed Hw1.
  unfold updateFeed.
  apply (steps_bind _ settled_trans); [apply settled_idle, idle_readFeed|].
  intros [data [e|]] w2 Hread Hw2; [apply settled_idle, idle_log|].
  apply (steps_bind _ settled_trans); [apply settled_idle, idle_parseFeed|].
  intros f w3 Hparse Hw3.
  apply (steps_forRange _ settled_refl settled_trans). intros e w4 He Hw4.
  apply (settled_updateEntry feed e w); [done | | done |].
  - exact (polled_intro _ _ _ _ _ _ _ _ _ _ Hread Hparse He).
  - eauto using settled_trans.
Qed.

End SettledFacts.

(** What is polled from the sample network: the entries of the one
    document it serves for [chan1]. *)
Lemma sample_polled (docs : list (string * YtFeed)) (doc : string)
    (faults : list string) (probe download convert : CmdResult)
    (name : string) (ytfeed : YtFeed) (e : YtEntry) :
  xmlUnmarshal (Sample.lib docs) doc = inr ytfeed ->
  polled (Sample.lib docs)
    (Sample.outside (Sample.net1 (Sample.ok doc)) faults probe download convert)
    (Sample.chan name "chan1") e ->
  e ∈ Entries ytfeed.
Proof.
  intros Hdoc (w0 & w1 & data & f & Hread & Hxml & He).
  destruct (readFeed_cases (Sample.lib docs)
              (Sample.outside (Sample.net1 (Sample.ok doc)) faults probe download convert)
              "chan1" w0 eq_refl) as (data' & err' & Hread' & Hcase).
  simpl in Hread. rewrite Hread' in Hread. injection Hread as -> -> _.
  simpl in Hcase. destruct Hcase as [-> _].
  change (bytesOf (Some doc)) with doc in Hxml.
  rewrite Hdoc in Hxml. injection Hxml as <-. exact He.
Qed.



(** C2, counterexample: the artifact of A is committed and [os.Stat] is
    denied at its path.  The sweep takes A for a new video: it probes,
    downloads and transcodes it, and the process exits when the rename
    is denied as well. *)
Lemma C2_stat_denied_counterexample :
  let lib := Sample.lib [("<feed>AB</feed>", Sample.feedAB)] in
  let out := Sample.outside (Sample.net1 (Sample.ok "<feed>AB</feed>"))
               ["audio/chan1/vidA.opus"]
               (Sample.ran (Sample.line "not_live") None)
               (Sample.ran "" (Some "raw")) (Sample.ran "" (Some "opus")) in
  let w := Sample.world [("audio/chan1/vidA.opus", "a")] in
  let r := doUpdate lib out (Sample.conf [Sample.chan "one" "chan1"]) w in
  getAudioFileName "chan1" "vidA" = "audio/chan1/vidA.opus"
  /\ fs w !! "audio/chan1/vidA.opus" = Some "a"
  /\ List.filter (concerns "vidA") (trace (finalWorld r))
     = [EvProbe "vidA"; EvDownload "vidA"; EvTranscode "vidA" "tmp.opus"]
  /\ trace (finalWorld r)
     = [EvHttpGet (Sample.feedUrl "chan1"); EvStat "audio/chan1/vidA.opus";
        EvProbe "vidA"; EvDownload "vidA"; EvTranscode "vidA" "tmp.opus";
        EvRename "tmp.opus" "audio/chan1/vidA.opus"]
  /\ exited r = true.
Proof. by vm_compute. Qed.

(** C10, as the code has it: an entry whose existence check finds its
    artifact ends with that check, so a rename onto a canonical path only
    follows a check that returned an error.  When the video identifiers
    of the entries polled contain no path separator and the existence
    check is not denied at the path, the artifact committed for a plain
    channel and video pair is still there, with its content, after an
    entry and after the whole sweep. *)
Theorem C10_committed_artifacts_kept :
  (forall (out : Outside) (feed : ConfFeed) (entry : YtEntry) (w w' : World)
          (info : option N),
      let dst := getAudioFileName (ChannelId feed) (VideoId entry) in
      osStat out dst w = Ret (info, None) w' ->
      updateEntry out feed entry w = Ret tt (afterCall (EvStat dst) w)
      /\ fs (afterCall (EvStat dst) w) = fs w)
  /\ (forall (out : Outside) (feed : ConfFeed) (entry : YtEntry) (w : World)
             (channelId videoId content : string),
        let path := getAudioFileName channelId videoId in
        GoPath.plainName channelId = true -> GoPath.noSeparator videoId = true ->
        GoPath.noSeparator (VideoId entry) = true ->
        statFault out path (clock w) = None ->
        fs w !! path = Some content ->
        fs (finalWorld (updateEntry out feed entry w)) !! path = Some content)
  /\ (forall (lib : Lib) (out : Outside) (conf : Conf) (w : World)
             (channelId videoId content : string),
        let path := getAudioFileName channelId videoId in
        GoPath.plainName channelId = true -> GoPath.noSeparator videoId = true ->
        (forall feed e, feed ∈ Feeds conf -> polled lib out feed e ->
           GoPath.noSeparator (VideoId e) = true) ->
        (forall t, statFault out path t = None) ->
        fs w !! path = Some content ->
        fs (finalWorld (doUpdate lib out conf w)) !! path = Some content).
Proof.
  split; [|split].
  - intros out feed entry w w' info dst Hstat. split; [|done].
    by eapply updateEntry_exists.
  - intros out feed entry w channelId videoId content path Hc Hv Hid Hstat Hfile.
    pose proof (getAudioFileName_nested _ _ Hc Hv) as Hnested.
    pose proof (keepsFile_updateEntry path Hnested out feed entry w Hid Hstat
                  (ex_intro _ content Hfile)) as Hkeep.
    unfold steps, keepsFile in Hkeep. by rewrite Hkeep.
  - intros lib out conf w channelId videoId content path Hc Hv Hids Hstat Hfile.
    pose proof (getAudioFileName_nested _ _ Hc Hv) as Hnested.
    pose proof (keepsFile_doUpdate path Hnested out lib conf w Hids Hstat
                  (ex_intro _ content Hfile)) as Hkeep.
    unfold steps, keepsFile in Hkeep. by rewrite Hkeep.
Qed.

(** C10, witness: with A committed the sweep fetches B and leaves A. *)
Lemma C10_committed_artifacts_kept_witness :
  let lib := Sample.lib [("<feed>AB</feed>", Sample.feedAB)] in
  let out := Sample.outside (Sample.net1 (Sample.ok "<feed>AB</feed>")) []
               (Sample.ran (Sample.line "was_live") None)
               (Sample.ran "" (Some "raw")) (Sample.ran "" (Some "opus")) in
  let conf := Sample.conf [Sample.chan "one" "chan1"] in
  let w := Sample.world [("audio/chan1/vidA.opus", "a")] in
  fs (finalWorld (updateEntry out (Sample.chan "one" "chan1") (Sample.entry "B" "vidB") w))
    !! "audio/chan1/vidA.opus" = Some "a"
  /\ fs (finalWorld (doUpdate lib out conf w)) !! "audio/chan1/vidA.opus" = Some "a".
Proof.
  intros lib out conf w. split.
  - exact (proj1 (proj2 C10_committed_artifacts_kept) out (Sample.chan "one" "chan1")
             (Sample.entry "B" "vidB") w "chan1" "vidA" "a"
             eq_refl eq_refl eq_refl eq_refl eq_refl).
  - apply (proj2 (proj2 C10_committed_artifacts_kept) lib out conf w "chan1" "vidA" "a");
      try reflexivity.
    intros feed e Hfeed He.
    apply list_elem_of_singleton in Hfeed. subst feed.
    apply (sample_polled _ _ _ _ _ _ _ Sample.feedAB) in He; [|reflexivity].
    apply elem_of_cons in He as [->|He]; [reflexivity|].
    apply list_elem_of_singleton in He. by subst e.
Defined.

(** C10, counterexample: the artifact of (chan1, vidA) is committed; the
    feed then lists an entry whose video identifier is that very path.
    Its download fails, [downloadAudio] removes its output file, which is
    named by the identifier, and the committed artifact is gone. *)
Lemma C10_artifact_removed_counterexample :
  let lib := Sample.lib [("<feed>X</feed>", Sample.feedX)] in
  let out := Sample.outside (Sample.net1 (Sample.ok "<feed>X</feed>")) []
               (Sample.ran (Sample.line "not_live") None)
               (Sample.failed "ERROR: unsupported URL") (Sample.failed "") in
  let w := Sample.world [("audio/chan1/vidA.opus", "a")] in
  let r := doUpdate lib out (Sample.conf [Sample.chan "one" "chan1"]) w in
  getAudioFileName "chan1" "vidA" = "audio/chan1/vidA.opus"
  /\ fs w !! "audio/chan1/vidA.opus" = Some "a"
  /\ returned r = true
  /\ fs (finalWorld r) !! "audio/chan1/vidA.opus" = None
  /\ trace (finalWorld r)
     = [EvHttpGet (Sample.feedUrl "chan1");
        EvStat "audio/chan1/audio/chan1/vidA.opus.opus";
        EvProbe "audio/chan1/vidA.opus"; EvDownload "audio/chan1/vidA.opus";
        EvRemove "audio/chan1/vidA.opus"].
Proof. by vm_compute. Qed.

(** ** A feed request *)

Lemma foldRange_returns {A S} (I : S -> World -> Prop) (l : list A)
    (body : A -> S -> M S) (s : S) (w : World) :
  I s w ->
  (forall x s0 w0, x ∈ l -> I s0 w0 ->
     exists s1 w1, body x s0 w0 = Ret s1 w1 /\ I s1 w1) ->
  exists s' w', foldRange l s body w = Ret s' w' /\ I s' w'.
Proof.
  revert s w. induction l as [|x l IH]; intros s w Hinv Hbody; simpl.
  - by exists s, w.
  - destruct (Hbody x s w) as (s1 & w1 & Hx & Hinv1); [left | done |].
    rewrite (bind_ret _ _ _ _ _ Hx). apply IH; [done|].
    intros y s0 w0 Hy. apply Hbody. by right.
Qed.

Section HandlerFacts.

Variable lib : Lib.
Variable out : Outside.
Variable conf : Conf.

Local Abbreviation artifact feed entry :=
  (getAudioFileName (ChannelId feed) (VideoId entry)).

(** Line 189: without an artifact the entry adds nothing. *)
Lemma publishEntry_absent (feed : ConfFeed) (entry : YtEntry) (feedOut : Feed)
    (w : World) (info : option N) (e : error) :
  osStat out (artifact feed entry) w
  = Ret (info, Some e) (afterCall (EvStat (artifact feed entry)) w) ->
  publishEntry lib out conf feed entry feedOut w
  = Ret feedOut (afterCall (EvStat (artifact feed entry)) w).
Proof. intros H. unfold publishEntry. by rewrite (bind_ret _ _ _ _ _ H). Qed.

(** Lines 192-195: a publish time that does not parse exits the process. *)
Lemma publishEntry_bad_time (feed : ConfFeed) (entry : YtEntry) (feedOut : Feed)
    (w : World) (content : string) (e : error) :
  statFault out (artifact feed entry) (clock w) = None ->
  fs w !! artifact feed entry = Some content ->
  timeParse lib (Published entry) = inl e ->
  publishEntry lib out conf feed entry feedOut w
  = Exit (withLog (Error e) (afterCall (EvStat (artifact feed entry)) w)).
Proof.
  intros Hstat Hfile Htime. unfold publishEntry.
  rewrite (bind_ret _ _ _ _ _ (osStat_found out _ _ _ Hstat Hfile)).
  by rewrite Htime.
Qed.

(** Lines 196-204: the item of an entry with an artifact. *)
Lemma publishEntry_item (feed : ConfFeed) (entry : YtEntry) (feedOut : Feed)
    (w : World) (content : string) (published : N) (media : YtMedia) :
  statFault out (artifact feed entry) (clock w) = None ->
  fs w !! artifact feed entry = Some content ->
  timeParse lib (Published entry) = inr published ->
  Media entry = Some media ->
  exists item,
    publishEntry lib out conf feed entry feedOut w
    = Ret {| FeedTitle := FeedTitle feedOut; FeedLink := FeedLink feedOut;
             Items := Items feedOut ++ [item] |}
        (afterCall (EvStat (artifact feed entry)) w)
    /\ ItemTitle item = Title entry
    /\ Length (ItemEnclosure item) = FormatInt (N.of_nat (String.length content))
    /\ Type_ (ItemEnclosure item) = "audio/opus".
Proof.
  intros Hstat Hfile Htime Hmedia. unfold publishEntry.
  rewrite (bind_ret _ _ _ _ _ (osStat_found out _ _ _ Hstat Hfile)).
  rewrite Htime, Hmedia. by eexists.
Qed.

(** Lines 181-185: a failed retrieval is logged and the channel adds
    nothing. *)
Lemma publishFeed_network_error (feed : ConfFeed) (feedOut : Feed) (w w1 : World)
    (data : option string) (e : error) :
  readFeed lib out (ChannelId feed) w = Ret (data, Some e) w1 ->
  publishFeed lib out conf feed feedOut w = Ret feedOut (withLog (Error e) w1).
Proof. intros H. unfold publishFeed. by rewrite (bind_ret _ _ _ _ _ H). Qed.

Variable w : World.

Local Abbreviation serving := (serving lib out conf w).

Hypothesis requests_ok : forall feed, feed ∈ Feeds conf ->
  newRequestErr lib ("https://www.youtube.com/feeds/videos.xml?channel_id="
                       ++ ChannelId feed) = None.
Hypothesis documents_parse : forall feed w0 w1 data, feed ∈ Feeds conf ->
  readFeed lib out (ChannelId feed) w0 = Ret (data, None) w1 ->
  exists ytfeed, xmlUnmarshal lib (bytesOf data) = inr ytfeed.
Hypothesis entries_ok : forall feed e content, feed ∈ Feeds conf ->
  polled lib out feed e -> fs w !! artifact feed e = Some content ->
  (exists t, timeParse lib (Published e) = inr t) /\ is_Some (Media e).

Lemma publishEntry_serving (feed : ConfFeed) (e : YtEntry) (feedOut : Feed)
    (w0 : World) :
  feed ∈ Feeds conf -> polled lib out feed e -> serving feedOut w0 ->
  exists feedOut' w1,
    publishEntry lib out conf feed e feedOut w0 = Ret feedOut' w1
    /\ serving feedOut' w1.
Proof.
  intros Hfeed He (Hfs & Htitle & Hlink & Hempty).
  destruct (statFault out (artifact feed e) (clock w0)) as [errno|] eqn:Hstat.
  { eexists _, _. split.
    - eapply publishEntry_absent. by apply osStat_fault.
    - done. }
  destruct (fs w0 !! artifact feed e) as [content|] eqn:Hfile.
  - destruct (entries_ok feed e content Hfeed He) as [[t Ht] [media Hmedia]];
      [by rewrite <- Hfs|].
    destruct (publishEntry_item feed e feedOut w0 content t media Hstat Hfile Ht Hmedia)
      as (item & Hrun & _).
    eexists _, _. split; [exact Hrun|].
    split; [done|]. split; [done|]. split; [done|].
    intros Hnone. specialize (Hnone feed e Hfeed He). congruence.
  - eexists _, _. split.
    + eapply publishEntry_absent. by apply osStat_missing.
    + done.
Qed.

Lemma publishFeed_serving (feed : ConfFeed) (feedOut : Feed) (w0 : World) :
  feed ∈ Feeds conf -> serving feedOut w0 ->
  exists feedOut' w1,
    publishFeed lib out conf feed feedOut w0 = Ret feedOut' w1
    /\ serving feedOut' w1.
Proof.
  intros Hfeed Hinv.
  destruct (readFeed_cases lib out (ChannelId feed) w0 (requests_ok feed Hfeed))
    as (data & err & Hread & _).
  destruct err as [e|].
  - eexists _, _. split; [by eapply publishFeed_network_error|].
    destruct Hinv as (Hfs & ?). by split.
  - destruct (documents_parse feed _ _ _ Hfeed Hread) as [ytfeed Hxml].
    unfold publishFeed. rewrite (bind_ret _ _ _ _ _ Hread).
    rewrite (bind_ret _ _ _ _ _ (parseFeed_ok lib data (Keywords feed) ytfeed _ Hxml)).
    apply (foldRange_returns serving).
    + destruct Hinv as (Hfs & ?). by split.
    + intros e s0 w2 He Hs0. apply publishEntry_serving; [done| |done].
      by exists w0, (afterCall (EvHttpGet
                       ("https://www.youtube.com/feeds/videos.xml?channel_id="
                          ++ ChannelId feed)) w0), data, ytfeed.
Qed.

Lemma feedGetHandler_serving :
  (forall f t, writeAtomErr out f t = None) ->
  exists feedOut w',
    feedGetHandler lib out conf w = Ret feedOut w' /\ serving feedOut w'.
Proof.
  intros Hwrite. unfold feedGetHandler.
  destruct (foldRange_returns serving (Feeds conf) (publishFeed lib out conf)
              {| FeedTitle := "low-fi podcast";
                 FeedLink := urlJoinPath lib "http://" [ServerAddress conf; "feed"];
                 Items := [] |} w) as (feedOut & w1 & Hrun & Hinv).
  - done.
  - intros feed s0 w0 Hfeed Hs0. by apply publishFeed_serving.
  - rewrite (bind_ret _ _ _ _ _ Hrun). run. simpl. rewrite Hwrite.
    eexists _, _. split; [done|]. destruct Hinv as (Hfs & ?). by split.
Qed.

(** Lines 181-185 by what the network call gave: a transport error or a
    status other than 200 is logged and the channel adds nothing. *)
Lemma publishFeed_retrieval_error (feed : ConfFeed) (feedOut : Feed) (w0 : World) :
  let url := "https://www.youtube.com/feeds/videos.xml?channel_id=" ++ ChannelId feed in
  newRequestErr lib url = None ->
  match clientDo out url (clock w0) with
  | inl e =>
      publishFeed lib out conf feed feedOut w0
      = Ret feedOut (withLog (Error e) (afterCall (EvHttpGet url) w0))
  | inr res =>
      StatusCode res <> StatusOK ->
      publishFeed lib out conf feed feedOut w0
      = Ret feedOut (withLog ("server response status " ++ Status res)
                       (afterCall (EvHttpGet url) w0))
  end.
Proof.
  intros url Hreq. unfold publishFeed, readFeed. fold url. rewrite Hreq. run. simpl.
  destruct (clientDo out url (clock w0)) as [e|res]; [done|].
  intros Hstatus. apply N.eqb_neq in Hstatus. by rewrite Hstatus.
Qed.

(** A body that cannot be read: the channel's turn parses no bytes. *)
Lemma publishFeed_body_read_failure (feed : ConfFeed) (feedOut : Feed) (w0 : World)
    (res : Response) (body : string) (e e' : error) :
  let url := "https://www.youtube.com/feeds/videos.xml?channel_id=" ++ ChannelId feed in
  newRequestErr lib url = None ->
  clientDo out url (clock w0) = inr res ->
  StatusCode res = StatusOK ->
  Body res = (body, Some e) ->
  xmlUnmarshal lib "" = inl e' ->
  publishFeed lib out conf feed feedOut w0
  = Exit (withLog (Error e') (afterCall (EvHttpGet url) w0)).
Proof.
  intros url Hreq Hdo Hstatus Hbody Hxml.
  unfold publishFeed, readFeed, parseFeed. fold url. rewrite Hreq. run. simpl.
  rewrite Hdo, Hstatus, Hbody. simpl. by rewrite Hxml.
Qed.

End HandlerFacts.


(** What the sample network returns for [chan1]. *)
Lemma sample_fetched (docs : list (string * YtFeed)) (doc : string)
    (faults : list string) (probe download convert : CmdResult)
    (w0 w1 : World) (data : option string) (err : option error) :
  readFeed (Sample.lib docs)
    (Sample.outside (Sample.net1 (Sample.ok doc)) faults probe download convert)
    "chan1" w0 = Ret (data, err) w1 ->
  data = Some doc /\ err = None.
Proof.
  intros Hread.
  destruct (readFeed_cases (Sample.lib docs)
              (Sample.outside (Sample.net1 (Sample.ok doc)) faults probe download convert)
              "chan1" w0 eq_refl) as (data' & err' & Hread' & Hcase).
  rewrite Hread' in Hread. injection Hread as -> -> _. exact Hcase.
Qed.



(** * Further properties *)

(** ** Filtering composes *)

Section FilterAlgebra.

Variable ToLower : string -> string.

Lemma filterFeed_entries (f : YtFeed) (ks : list string) :
  filterFeed ToLower f (Some ks)
  = {| Entries := filter (fun e => matchesb ToLower ks e = true) (Entries f) |}.
Proof. unfold filterFeed. by rewrite entryLoop_spec. Qed.

Lemma matchesb_app (ks ks' : list string) (e : YtEntry) :
  matchesb ToLower (ks ++ ks')%list e = matchesb ToLower ks e || matchesb ToLower ks' e.
Proof. unfold matchesb. apply existsb_app. Qed.

Lemma matchesb_same_keywords (ks ks' : list string) (e : YtEntry) :
  (forall k, k ∈ ks <-> k ∈ ks') -> matchesb ToLower ks e = matchesb ToLower ks' e.
Proof.
  intros Hsame. apply eq_true_iff_eq. unfold matchesb.
  rewrite !existsb_exists. split; intros [k [Hin Hc]]; exists k; split; try done;
    apply list_elem_of_In, Hsame, list_elem_of_In, Hin.
Qed.

End FilterAlgebra.

(** X1: filtering twice with one keyword list is filtering once, and
    filtering with two lists in turn gives the entries that match both,
    in either order. *)
Theorem X1_filter_twice (ToLower : string -> string) (f : YtFeed)
    (keywords : option (list string)) (ks ks' : list string) :
  filterFeed ToLower (filterFeed ToLower f keywords) keywords
  = filterFeed ToLower f keywords
  /\ filterFeed ToLower (filterFeed ToLower f (Some ks)) (Some ks')
     = filterFeed ToLower (filterFeed ToLower f (Some ks')) (Some ks)
  /\ forall e,
       e ∈ Entries (filterFeed ToLower (filterFeed ToLower f (Some ks)) (Some ks'))
       <-> e ∈ Entries f /\ title_matches ToLower ks e /\ title_matches ToLower ks' e.
Proof.
  split; [|split].
  - destruct keywords as [l|]; [|done].
    rewrite !filterFeed_entries. simpl. f_equal.
    rewrite list_filter_filter. apply list_filter_iff. tauto.
  - rewrite !filterFeed_entries. simpl. f_equal.
    rewrite !list_filter_filter. apply list_filter_iff. tauto.
  - intros e. rewrite !filterFeed_entries. simpl.
    rewrite !list_elem_of_filter, !matchesb_spec. tauto.
Qed.

(** X2: the result depends on the keywords as a set, so their order and
    repetitions do not matter, and more keywords never drop an entry:
    the entries kept for a list are a subsequence of those kept for a
    longer one. *)
Theorem X2_keywords_as_a_set (ToLower : string -> string) (f : YtFeed)
    (ks ks' : list string) :
  ((forall k, k ∈ ks <-> k ∈ ks') ->
   filterFeed ToLower f (Some ks) = filterFeed ToLower f (Some ks'))
  /\ sublist (Entries (filterFeed ToLower f (Some ks)))
       (Entries (filterFeed ToLower f (Some (ks ++ ks')%list))).
Proof.
  split.
  - intros Hsame. rewrite !filterFeed_entries. f_equal.
    apply list_filter_iff. intros e. by rewrite (matchesb_same_keywords _ ks ks').
  - rewrite !filterFeed_entries. simpl.
    induction (Entries f) as [|e l IH]; [done|].
    rewrite !filter_cons.
    destruct (decide (matchesb ToLower ks e = true)) as [H1|H1];
      destruct (decide (matchesb ToLower (ks ++ ks') e = true)) as [H2|H2].
    + by apply sublist_skip.
    + rewrite matchesb_app, H1 in H2. done.
    + by apply sublist_cons.
    + exact IH.
Qed.

(** X3: the empty keyword occurs in every title, so a keyword list that
    contains it keeps every entry, in order. *)
Theorem X3_empty_keyword_keeps_all (ToLower : string -> string) (f : YtFeed)
    (ks : list string) :
  ToLower "" = "" -> "" ∈ ks ->
  filterFeed ToLower f (Some ks) = f.
Proof.
  intros Hlower Hin. rewrite filterFeed_entries. destruct f as [es]. simpl. f_equal.
  assert (Hall : forall e, matchesb ToLower ks e = true).
  { intros e. apply matchesb_spec. exists "". split; [done|].
    exists "", (ToLower (Title e)). by rewrite Hlower. }
  induction es as [|e es IH]; [done|].
  rewrite filter_cons, decide_True by apply Hall. by rewrite IH.
Qed.

(** X3, witness: the keywords of a channel include the empty string. *)
Lemma X3_empty_keyword_keeps_all_witness :
  filterFeed GoStrings.asciiToLower Sample.feedAB (Some ["news"; ""]) = Sample.feedAB.
Proof.
  apply (X3_empty_keyword_keeps_all GoStrings.asciiToLower Sample.feedAB ["news"; ""]).
  - reflexivity.
  - by right; left.
Defined.

(** X2, witness: the same keywords in another order, one of them twice. *)
Lemma X2_keywords_as_a_set_witness :
  filterFeed GoStrings.asciiToLower Sample.feedAB (Some ["a"; "x"])
  = filterFeed GoStrings.asciiToLower Sample.feedAB (Some ["x"; "a"; "x"]).
Proof.
  apply (proj1 (X2_keywords_as_a_set GoStrings.asciiToLower Sample.feedAB
                  ["a"; "x"] ["x"; "a"; "x"])).
  intros k. rewrite !elem_of_cons, !elem_of_nil. tauto.
Defined.

(** ** Retrieval *)

Lemma bind_ret_inv {A B} (m : M A) (k : A -> M B) (w w' : World) (b : B) :
  (m ≫= k) w = Ret b w' -> exists a w1, m w = Ret a w1 /\ k a w1 = Ret b w'.
Proof.
  unfold mbind, M_bind, bind. destruct (m w) as [a w1|w1|w1]; [eauto | done..].
Qed.

Lemma readFeed_ret_inv (lib : Lib) (out : Outside) (channelId : string)
    (w w' : World) (data : option string) (err : option error) :
  readFeed lib out channelId w = Ret (data, err) w' ->
  w' = afterCall (EvHttpGet ("https://www.youtube.com/feeds/videos.xml?channel_id="
                               ++ channelId)) w.
Proof.
  intros Hread.
  destruct (newRequestErr lib ("https://www.youtube.com/feeds/videos.xml?channel_id="
                                 ++ channelId)) as [e|] eqn:Hreq.
  - by rewrite (readFeed_bad_request lib out channelId w e Hreq) in Hread.
  - destruct (readFeed_cases lib out channelId w Hreq) as (d & e & Hrun & _).
    rewrite Hrun in Hread. by injection Hread as _ _ <-.
Qed.

(** X4: every way [readFeed] ends.  A request that cannot be built exits
    the process before anything is sent.  Otherwise one request is made
    and the function returns: an error never comes with a document; a
    document is returned exactly when the response has status 200 and
    its body is read in full, and it is that body; a transport error is
    returned as it is, and any other status as the error [server
    response status] followed by the status line. *)
Theorem X4_readFeed_outcomes (lib : Lib) (out : Outside) (channelId : string)
    (w : World) :
  let url := "https://www.youtube.com/feeds/videos.xml?channel_id=" ++ channelId in
  match newRequestErr lib url with
  | Some e => readFeed lib out channelId w = Exit (withLog (Error e) w)
  | None =>
      exists data err,
        readFeed lib out channelId w = Ret (data, err) (afterCall (EvHttpGet url) w)
        /\ (err <> None -> data = None)
        /\ (forall body,
              data = Some body
              <-> exists res, clientDo out url (clock w) = inr res
                              /\ StatusCode res = StatusOK /\ Body res = (body, None))
        /\ (forall e, clientDo out url (clock w) = inl e -> err = Some e)
        /\ (forall res, clientDo out url (clock w) = inr res ->
              StatusCode res <> StatusOK ->
              err = Some (errorString ("server response status " ++ Status res)))
  end.
Proof.
  intros url. destruct (newRequestErr lib url) as [e|] eqn:Hreq.
  - by apply readFeed_bad_request.
  - unfold readFeed. fold url. rewrite Hreq. run. simpl.
    destruct (clientDo out url (clock w)) as [e|res].
    { eexists _, _. split; [done|]. repeat split; try done.
      - by intros (res & [=] & _).
      - by intros e' [= ->]. }
    destruct (StatusCode res =? StatusOK)%N eqn:Hcode; simpl.
    + apply N.eqb_eq in Hcode.
      destruct (Body res) as [body [e|]] eqn:Hbody.
      * eexists _, _. split; [done|]. repeat split; try done.
        -- intros (res' & [= <-] & _ & Hb). congruence.
        -- by intros res' [= <-].
      * eexists _, _. split; [done|]. repeat split; try done.
        -- intros [= <-]. by exists res.
        -- intros (res' & [= <-] & _ & Hb). congruence.
        -- by intros res' [= <-].
    + apply N.eqb_neq in Hcode.
      eexists _, _. split; [done|]. repeat split; try done.
      * by intros (res' & [= <-] & Hc & _).
      * by intros res' [= <-].
Qed.

(** ** The requests of a sweep and of a feed request *)

Section RequestFacts.

Lemma sameRequests_refl (w : World) : sameRequests w w.
Proof. by unfold sameRequests. Qed.

Lemma sameRequests_trans (a b c : World) :
  sameRequests a b -> sameRequests b c -> sameRequests a c.
Proof. unfold sameRequests. congruence. Qed.

Lemma sameRequests_log (line : string) (w : World) :
  steps sameRequests (logPrint line) w.
Proof. by unfold steps, sameRequests. Qed.

Lemma sameRequests_fatal {A} (line : string) (w : World) :
  steps sameRequests (@logFatal A line) w.
Proof. by unfold steps, sameRequests. Qed.

Lemma sameRequests_modifyFs (f : gmap string string -> gmap string string) (w : World) :
  steps sameRequests (modifyFs f) w.
Proof. by unfold steps, sameRequests. Qed.

Lemma requests_snoc (t : list Event) (ev : Event) :
  requests (t ++ [ev])
  = (requests t ++ match ev with EvHttpGet url => [url] | _ => [] end)%list.
Proof. unfold requests. rewrite omap_app. by destruct ev. Qed.

Lemma sameRequests_call (ev : Event) (w : World) :
  (forall url, ev <> EvHttpGet url) -> steps sameRequests (call ev) w.
Proof.
  intros Hev. unfold steps, sameRequests. simpl. rewrite requests_snoc.
  destruct ev; try apply app_nil_r. by destruct (Hev url).
Qed.

Ltac requests_go :=
  steps_go sameRequests_refl sameRequests_trans
    ltac:(first [ apply sameRequests_log | apply sameRequests_fatal
                | apply sameRequests_modifyFs
                | apply sameRequests_call; done ]).

Variable lib : Lib.
Variable out : Outside.

Lemma sameRequests_updateEntry (feed : ConfFeed) (entry : YtEntry) (w : World) :
  steps sameRequests (updateEntry out feed entry) w.
Proof.
  unfold updateEntry, fetchEntry, downloadEntry, isVideoReady, downloadAudio,
    recodeAudio, combinedOutput, osStat, osRemove, osRename.
  requests_go.
Qed.

Lemma sameRequests_publishEntry (conf : Conf) (feed : ConfFeed) (entry : YtEntry)
    (feedOut : Feed) (w : World) :
  steps sameRequests (publishEntry lib out conf feed entry feedOut) w.
Proof. unfold publishEntry, osStat. requests_go. Qed.

Lemma sameRequests_parseFeed (data : option string) (keywords : option (list string))
    (w : World) :
  steps sameRequests (parseFeed lib data keywords) w.
Proof.
  unfold parseFeed. destruct (xmlUnmarshal lib (bytesOf data)).
  - apply sameRequests_fatal.
  - apply sameRequests_refl.
Qed.

Local Abbreviation feedUrl feed :=
  ("https://www.youtube.com/feeds/videos.xml?channel_id=" ++ ChannelId feed).

(** A channel of a sweep that is got through made one request. *)
Lemma updateFeed_requests (feed : ConfFeed) (w w' : World) :
  updateFeed lib out feed w = Ret tt w' ->
  requests (trace w') = (requests (trace w) ++ [feedUrl feed])%list.
Proof.
  unfold updateFeed. intros Hrun.
  apply bind_ret_inv in Hrun as ([data err] & w1 & Hread & Hrest).
  apply readFeed_ret_inv in Hread as ->.
  assert (Hsame : sameRequests (afterCall (EvHttpGet (feedUrl feed)) w) w').
  { change w' with (finalWorld (Ret tt w')). rewrite <- Hrest.
    destruct err; [apply sameRequests_log|].
    apply (steps_bind _ sameRequests_trans); [apply sameRequests_parseFeed|].
    intros f w2 _ _. apply (steps_forRange _ sameRequests_refl sameRequests_trans).
    intros e w3 _ _. apply sameRequests_updateEntry. }
  unfold sameRequests in Hsame. rewrite Hsame. simpl. by rewrite requests_snoc.
Qed.

Lemma steps_foldRange (R : World -> World -> Prop) {A S} (l : list A) (s : S)
    (body : A -> S -> M S) (w : World) :
  (forall w0, R w0 w0) -> (forall a b c, R a b -> R b c -> R a c) ->
  (forall x s' w', x ∈ l -> R w w' -> steps R (body x s') w') ->
  steps R (foldRange l s body) w.
Proof.
  intros Hrefl Htrans. revert s w.
  induction l as [|x l IH]; intros s w Hbody; simpl.
  - by apply steps_ret.
  - apply (steps_bind _ Htrans).
    + apply Hbody; [left | apply Hrefl].
    + intros s' w' _ Hw'. apply IH. intros y s'' w'' Hy Hw''.
      apply Hbody; [by right | by eapply Htrans].
Qed.

Lemma publishFeed_requests (conf : Conf) (feed : ConfFeed) (feedOut feedOut' : Feed)
    (w w' : World) :
  publishFeed lib out conf feed feedOut w = Ret feedOut' w' ->
  requests (trace w') = (requests (trace w) ++ [feedUrl feed])%list.
Proof.
  unfold publishFeed. intros Hrun.
  apply bind_ret_inv in Hrun as ([data err] & w1 & Hread & Hrest).
  apply readFeed_ret_inv in Hread as ->.
  assert (Hsame : sameRequests (afterCall (EvHttpGet (feedUrl feed)) w) w').
  { change w' with (finalWorld (Ret feedOut' w')). rewrite <- Hrest.
    destruct err.
    { apply (steps_bind _ sameRequests_trans); [apply sameRequests_log|].
      intros. by apply steps_ret, sameRequests_refl. }
    apply (steps_bind _ sameRequests_trans); [apply sameRequests_parseFeed|].
    intros f w2 _ _.
    apply (steps_foldRange _ _ _ _ _ sameRequests_refl sameRequests_trans).
    intros e s w3 _ _. apply sameRequests_publishEntry. }
  unfold sameRequests in Hsame. rewrite Hsame. simpl. by rewrite requests_snoc.
Qed.

Lemma forRange_requests {A} (l : list A) (body : A -> M unit) (g : A -> string)
    (w w' : World) :
  (forall x w0 w1, x ∈ l -> body x w0 = Ret tt w1 ->
     requests (trace w1) = (requests (trace w0) ++ [g x])%list) ->
  forRange l body w = Ret tt w' ->
  requests (trace w') = (requests (trace w) ++ map g l)%list.
Proof.
  revert w. induction l as [|x l IH]; intros w Hbody Hrun; simpl in *.
  - injection Hrun as <-. by rewrite app_nil_r.
  - apply bind_ret_inv in Hrun as ([] & w1 & Hx & Hrest).
    rewrite (IH w1); [|intros; eapply Hbody; [by right | done] | done].
    rewrite (Hbody x w w1); [|left | done]. by rewrite <- app_assoc.
Qed.

Lemma foldRange_requests {A S} (l : list A) (body : A -> S -> M S) (g : A -> string)
    (s s' : S) (w w' : World) :
  (forall x s0 s1 w0 w1, x ∈ l -> body x s0 w0 = Ret s1 w1 ->
     requests (trace w1) = (requests (trace w0) ++ [g x])%list) ->
  foldRange l s body w = Ret s' w' ->
  requests (trace w') = (requests (trace w) ++ map g l)%list.
Proof.
  revert s w. induction l as [|x l IH]; intros s w Hbody Hrun; simpl in *.
  - injection Hrun as _ <-. by rewrite app_nil_r.
  - apply bind_ret_inv in Hrun as (s1 & w1 & Hx & Hrest).
    rewrite (IH s1 w1); [|intros; eapply Hbody; [by right | done] | done].
    rewrite (Hbody x s s1 w w1); [|left | done]. by rewrite <- app_assoc.
Qed.

End RequestFacts.

(** X6: a sweep that comes to its end has requested the feed of every
    configured channel once, in the order of the configuration, and so
    has a feed request that is answered. *)
Theorem X6_one_request_per_channel (lib : Lib) (out : Outside) (conf : Conf)
    (w w' : World) :
  let urls := map (fun feed => "https://www.youtube.com/feeds/videos.xml?channel_id="
                                 ++ ChannelId feed) (Feeds conf) in
  (doUpdate lib out conf w = Ret tt w' ->
   requests (trace w') = (requests (trace w) ++ urls)%list)
  /\ (forall feedOut, feedGetHandler lib out conf w = Ret feedOut w' ->
        requests (trace w') = (requests (trace w) ++ urls)%list).
Proof.
  intros urls. split.
  - intros Hrun. unfold doUpdate in Hrun.
    apply (forRange_requests _ _ _ _ _ (fun feed _ _ _ => updateFeed_requests lib out feed _ _)
             Hrun).
  - intros feedOut Hrun. unfold feedGetHandler in Hrun.
    apply bind_ret_inv in Hrun as (f1 & w1 & Hfold & Hrest).
    apply bind_ret_inv in Hrest as (t & w2 & Hcall & Hwrite).
    injection Hcall as <- <-.
    assert (w' = afterCall EvWriteAtom w1) as ->.
    { destruct (writeAtomErr out f1 (clock w1)); [done|]. by injection Hwrite as _ <-. }
    simpl. rewrite requests_snoc, app_nil_r.
    apply (foldRange_requests _ _ _ _ _ _ _
             (fun feed _ _ _ _ _ => publishFeed_requests lib out conf feed _ _ _ _) Hfold).
Qed.

(** X6, witness: a sweep over two channels, the second out of reach. *)
Lemma X6_one_request_per_channel_witness :
  let lib := Sample.lib [("<feed>AB</feed>", Sample.feedAB)] in
  let out := Sample.outside (Sample.net1 (Sample.ok "<feed>AB</feed>")) []
               (Sample.ran (Sample.line "is_live") None)
               (Sample.failed "") (Sample.failed "") in
  let conf := Sample.conf [Sample.chan "one" "chan1"; Sample.chan "two" "chan2"] in
  let w := Sample.world [] in
  requests (trace (finalWorld (doUpdate lib out conf w)))
  = [Sample.feedUrl "chan1"; Sample.feedUrl "chan2"].
Proof.
  intros lib out conf w.
  apply (proj1 (X6_one_request_per_channel lib out conf w
                  (finalWorld (doUpdate lib out conf w)))).
  by vm_compute.
Defined.

Section SkippedChannels.

Variable lib : Lib.
Variable out : Outside.

Local Abbreviation feedUrl feed :=
  ("https://www.youtube.com/feeds/videos.xml?channel_id=" ++ ChannelId feed).

(** The retrieval fails: no response, or a response with another status
    than 200. *)
Lemma updateFeed_unreachable (feed : ConfFeed) (w : World) :
  newRequestErr lib (feedUrl feed) = None ->
  match clientDo out (feedUrl feed) (clock w) with
  | inl _ => True
  | inr res => StatusCode res <> StatusOK
  end ->
  exists e, updateFeed lib out feed w
            = Ret tt (withLog (Error e) (afterCall (EvHttpGet (feedUrl feed)) w)).
Proof.
  intros Hreq Hfail. unfold updateFeed, readFeed. rewrite Hreq. run. simpl.
  destruct (clientDo out _ (clock w)) as [e|res]; [by exists e|].
  apply N.eqb_neq in Hfail. rewrite Hfail. simpl.
  by exists (errorString ("server response status " ++ Status res)).
Qed.

Lemma forRange_unreachable (feeds : list ConfFeed) (w : World) :
  (forall feed, feed ∈ feeds -> newRequestErr lib (feedUrl feed) = None) ->
  (forall feed t, feed ∈ feeds ->
     match clientDo out (feedUrl feed) t with
     | inl _ => True
     | inr res => StatusCode res <> StatusOK
     end) ->
  exists w',
    forRange feeds (updateFeed lib out) w = Ret tt w'
    /\ fs w' = fs w
    /\ trace w' = (trace w ++ map (fun feed => EvHttpGet (feedUrl feed)) feeds)%list
    /\ length (logged w') = length (logged w) + length feeds.
Proof.
  revert w. induction feeds as [|feed feeds IH]; intros w Hreq Hfail; simpl.
  - exists w. by rewrite app_nil_r, Nat.add_0_r.
  - destruct (updateFeed_unreachable feed w) as [e Hfeed];
      [apply Hreq; left | apply Hfail; left |].
    rewrite (bind_ret _ _ _ _ _ Hfeed).
    destruct (IH (withLog (Error e) (afterCall (EvHttpGet (feedUrl feed)) w)))
      as (w' & Hrun & Hfs & Htrace & Hlog).
    + intros. apply Hreq. by right.
    + intros. apply Hfail. by right.
    + exists w'. split; [done|]. split; [done|]. split.
      * rewrite Htrace. simpl. by rewrite <- app_assoc.
      * rewrite Hlog. simpl. rewrite length_app. simpl. lia.
Qed.

End SkippedChannels.

(** X5: a sweep in which no feed can be retrieved (no response, or a
    status other than 200) still comes to its end: it makes its one
    request per channel and nothing else, logs one line per channel and
    changes no file. *)
Theorem X5_unreachable_channels_are_skipped (lib : Lib) (out : Outside) (conf : Conf)
    (w : World) :
  let url feed := "https://www.youtube.com/feeds/videos.xml?channel_id="
                    ++ ChannelId feed in
  (forall feed, feed ∈ Feeds conf -> newRequestErr lib (url feed) = None) ->
  (forall feed t, feed ∈ Feeds conf ->
     match clientDo out (url feed) t with
     | inl _ => True
     | inr res => StatusCode res <> StatusOK
     end) ->
  exists w',
    doUpdate lib out conf w = Ret tt w'
    /\ fs w' = fs w
    /\ trace w' = (trace w ++ map (fun feed => EvHttpGet (url feed)) (Feeds conf))%list
    /\ length (logged w') = length (logged w) + length (Feeds conf).
Proof. intros url. apply forRange_unreachable. Qed.

(** X5, witness: one channel times out, the other answers 404. *)
Lemma X5_unreachable_channels_are_skipped_witness :
  let lib := Sample.lib [] in
  let out := Sample.outside
               (Sample.net1 (inr {| StatusCode := 404; Status := "404 Not Found";
                                    Body := ("", None) |})) []
               (Sample.failed "") (Sample.failed "") (Sample.failed "") in
  let conf := Sample.conf [Sample.chan "one" "chan1"; Sample.chan "two" "chan2"] in
  let w := Sample.world [] in
  exists w',
    doUpdate lib out conf w = Ret tt w'
    /\ fs w' = fs w
    /\ trace w' = [EvHttpGet (Sample.feedUrl "chan1"); EvHttpGet (Sample.feedUrl "chan2")]
    /\ length (logged w') = 2.
Proof.
  intros lib out conf w.
  apply (X5_unreachable_channels_are_skipped lib out conf w).
  - reflexivity.
  - intros feed t Hfeed.
    apply elem_of_cons in Hfeed as [->|Hfeed]; [simpl; discriminate|].
    apply list_elem_of_singleton in Hfeed. by subst feed.
Defined.

(** ** Download, transcode and commit *)

Section PipelineFacts.

Variable out : Outside.

(** X7: what [downloadAudio] leaves behind.  It always returns the path
    named by the video identifier.  When the download fails that path is
    removed, whether the downloader wrote it or it was there before, the
    downloader's output is logged and no other file changes; when it
    succeeds nothing is logged and the file is as the downloader wrote
    it. *)
Theorem X7_downloadAudio_outcomes (videoId : string) (w : World) :
  let r := downloadRun out videoId (clock w) in
  match cmdErr r with
  | Some e =>
      exists w',
        downloadAudio out videoId w = Ret (videoId, Some e) w'
        /\ fs w' = delete videoId (fs w)
        /\ trace w' = (trace w ++ [EvDownload videoId; EvRemove videoId])%list
        /\ logged w' = (logged w ++ [cmdOut r])%list
  | None =>
      exists w',
        downloadAudio out videoId w = Ret (videoId, None) w'
        /\ fs w' = match cmdFile r with
                   | Some content => <[videoId := content]> (fs w)
                   | None => fs w
                   end
        /\ trace w' = (trace w ++ [EvDownload videoId])%list
        /\ logged w' = logged w
  end.
Proof.
  intros r. unfold downloadAudio, combinedOutput, osRemove. run. simpl. fold r.
  destruct (cmdErr r) as [e|]; destruct (cmdFile r) as [content|]; simpl.
  - rewrite lookup_insert_eq. simpl. eexists. split; [done|]. simpl.
    split; [by rewrite delete_insert_eq|]. by rewrite <- app_assoc.
  - destruct (fs w !! videoId) eqn:Hfile; simpl.
    + eexists. split; [done|]. simpl. split; [done|]. by rewrite <- app_assoc.
    + eexists. split; [done|]. simpl.
      split; [by rewrite delete_id|]. by rewrite <- app_assoc.
  - by eexists.
  - by eexists.
Qed.

(** X8: a failed download skips the entry: the sweep goes on (the body
    returns), nothing is transcoded or renamed, the download file is
    gone, and the log says so. *)
Theorem X8_download_failure_skips (desc : string) (entry : YtEntry) (dst : string)
    (w : World) (e : error) :
  let videoId := VideoId entry in
  let r := downloadRun out videoId (clock w) in
  cmdErr r = Some e ->
  exists w',
    downloadEntry out desc entry dst w = Ret tt w'
    /\ fs w' = delete videoId (fs w)
    /\ trace w' = (trace w ++ [EvDownload videoId; EvRemove videoId])%list
    /\ logged w'
       = (logged w ++ [("downloading " ++ desc)%string; cmdOut r;
                       (desc ++ " download error, skipped")%string])%list.
Proof.
  intros videoId r Herr.
  unfold downloadEntry, downloadAudio, combinedOutput, osRemove. run. simpl.
  fold videoId r. rewrite Herr.
  destruct (cmdFile r) as [content|]; simpl.
  - rewrite lookup_insert_eq. simpl. eexists. split; [done|]. simpl.
    split; [by rewrite delete_insert_eq|]. by rewrite <- !app_assoc.
  - destruct (fs w !! videoId) eqn:Hfile; simpl.
    + eexists. split; [done|]. simpl. split; [done|]. by rewrite <- !app_assoc.
    + eexists. split; [done|]. simpl.
      split; [by rewrite delete_id|]. by rewrite <- !app_assoc.
Qed.

(** X9: the commit is all or nothing.  [recodeAudio] returns only when
    the converter succeeded, left a file at [tmp.opus] and the rename
    went through; the destination then holds that whole file and
    [tmp.opus] is gone.  In every other case the process exits and the
    destination is as it was. *)
Theorem X9_recodeAudio_commit (fileIn fileOut : string) (w : World) :
  fileOut ≠ "tmp.opus" ->
  let conv := convertRun out fileIn "tmp.opus" (clock w) in
  let converted := match cmdFile conv with
                   | Some content => <["tmp.opus" := content]> (fs w)
                   | None => fs w
                   end in
  let r := recodeAudio out fileIn fileOut w in
  match cmdErr conv, renameFault out "tmp.opus" fileOut (S (clock w)),
        converted !! "tmp.opus" with
  | None, None, Some content =>
      exists w',
        r = Ret tt w'
        /\ fs w' = <[fileOut := content]> (delete "tmp.opus" converted)
        /\ fs w' !! fileOut = Some content
        /\ fs w' !! "tmp.opus" = None
  | _, _, _ => exited r = true /\ fs (finalWorld r) !! fileOut = fs w !! fileOut
  end.
Proof.
  intros Hout conv converted r. subst converted r.
  unfold recodeAudio, combinedOutput, osRename. run. simpl. fold conv.
  destruct (cmdErr conv) as [e|] eqn:Herr.
  { destruct (cmdFile conv); simpl; split; try done. by rewrite lookup_insert_ne. }
  destruct (renameFault out "tmp.opus" fileOut (S (clock w))) as [errno|] eqn:Hren.
  { destruct (cmdFile conv); simpl; rewrite Hren; simpl; split; try done.
    by rewrite lookup_insert_ne. }
  destruct (cmdFile conv) as [content|]; simpl; rewrite Hren.
  - rewrite lookup_insert_eq. simpl. eexists. split; [done|]. simpl.
    split; [done|]. split; [by rewrite lookup_insert_eq|].
    by rewrite lookup_insert_ne, lookup_delete_eq.
  - destruct (fs w !! "tmp.opus") as [content|] eqn:Htmp; simpl; [|done].
    eexists. split; [done|]. simpl.
    split; [done|]. split; [by rewrite lookup_insert_eq|].
    by rewrite lookup_insert_ne, lookup_delete_eq.
Qed.

(** X10: a converter failure after a good download exits the process in
    the middle of the entry.  The converter's output and its error are
    the last two log lines, nothing is renamed, the download is not
    removed, and the destination is as it was. *)
Theorem X10_transcode_failure_exits (desc : string) (entry : YtEntry) (dst : string)
    (w : World) (e : error) (raw : string) :
  let videoId := VideoId entry in
  let dl := downloadRun out videoId (clock w) in
  let conv := convertRun out videoId "tmp.opus" (S (clock w)) in
  dst ≠ videoId -> dst ≠ "tmp.opus" -> videoId ≠ "tmp.opus" ->
  cmdErr dl = None -> cmdFile dl = Some raw -> cmdErr conv = Some e ->
  exists w',
    downloadEntry out desc entry dst w = Exit w'
    /\ fs w' !! dst = fs w !! dst
    /\ fs w' !! videoId = Some raw
    /\ trace w' = (trace w ++ [EvDownload videoId; EvTranscode videoId "tmp.opus"])%list
    /\ logged w'
       = (logged w ++ [("downloading " ++ desc)%string; (desc ++ " downloaded")%string;
                       ("recoding " ++ desc)%string; cmdOut conv; Error e])%list.
Proof.
  intros videoId dl conv Hdv Hdt Hvt Hdl Hraw Hconv.
  unfold downloadEntry, downloadAudio, recodeAudio, combinedOutput. run. simpl.
  fold videoId dl. rewrite Hdl, Hraw. simpl. fold conv. rewrite Hconv.
  destruct (cmdFile conv) as [partial|]; simpl.
  - eexists. split; [done|]. simpl.
    split; [by rewrite !lookup_insert_ne|].
    split; [by rewrite lookup_insert_ne, lookup_insert_eq|].
    by rewrite <- !app_assoc.
  - eexists. split; [done|]. simpl.
    split; [by rewrite !lookup_insert_ne|].
    split; [by rewrite lookup_insert_eq|].
    by rewrite <- !app_assoc.
Qed.

End PipelineFacts.

(** X8, witness: the downloader fails and leaves a partial file. *)
Lemma X8_download_failure_skips_witness :
  let out := Sample.outside (Sample.net1 (Sample.ok "<feed>AB</feed>")) []
               (Sample.ran (Sample.line "not_live") None)
               (Sample.failed "ERROR: unable to download") (Sample.failed "") in
  let w := Sample.world [("vidA", "partial")] in
  exists w',
    downloadEntry out "one vidA" (Sample.entry "A" "vidA") "audio/chan1/vidA.opus" w
    = Ret tt w'
    /\ fs w' = delete "vidA" (fs w)
    /\ trace w' = [EvDownload "vidA"; EvRemove "vidA"]
    /\ logged w' = ["downloading one vidA"; "ERROR: unable to download";
                    "one vidA download error, skipped"].
Proof.
  intros out w.
  exact (X8_download_failure_skips out "one vidA" (Sample.entry "A" "vidA")
           "audio/chan1/vidA.opus" w (errorString "exit status 1") eq_refl).
Defined.

(** X9, witness: the converter and the rename succeed, over an older
    artifact. *)
Lemma X9_recodeAudio_commit_witness :
  let out := Sample.outside (Sample.net1 (Sample.ok "<feed>AB</feed>")) []
               (Sample.ran (Sample.line "not_live") None)
               (Sample.ran "" (Some "raw")) (Sample.ran "" (Some "opus")) in
  let w := Sample.world [("vidA", "raw"); ("audio/chan1/vidA.opus", "old")] in
  exists w',
    recodeAudio out "vidA" "audio/chan1/vidA.opus" w = Ret tt w'
    /\ fs w' = <["audio/chan1/vidA.opus" := "opus"]>
                 (delete "tmp.opus" (<["tmp.opus" := "opus"]> (fs w)))
    /\ fs w' !! "audio/chan1/vidA.opus" = Some "opus"
    /\ fs w' !! "tmp.opus" = None.
Proof.
  intros out w.
  assert (Hne : "audio/chan1/vidA.opus" ≠ "tmp.opus") by done.
  pose proof (X9_recodeAudio_commit out "vidA" "audio/chan1/vidA.opus" w Hne) as H.
  exact H.
Defined.

(** X10, witness: the download is good and the converter rejects it. *)
Lemma X10_transcode_failure_exits_witness :
  let out := Sample.outside (Sample.net1 (Sample.ok "<feed>AB</feed>")) []
               (Sample.ran (Sample.line "not_live") None)
               (Sample.ran "" (Some "raw")) (Sample.failed "Invalid data found") in
  let w := Sample.world [("audio/chan1/vidA.opus", "old")] in
  exists w',
    downloadEntry out "one vidA" (Sample.entry "A" "vidA") "audio/chan1/vidA.opus" w
    = Exit w'
    /\ fs w' !! "audio/chan1/vidA.opus" = Some "old"
    /\ fs w' !! "vidA" = Some "raw"
    /\ trace w' = [EvDownload "vidA"; EvTranscode "vidA" "tmp.opus"]
    /\ logged w' = ["downloading one vidA"; "one vidA downloaded"; "recoding one vidA";
                    "Invalid data found"; "exit status 1"].
Proof.
  intros out w.
  assert (H1 : "audio/chan1/vidA.opus" ≠ "vidA") by done.
  assert (H2 : "audio/chan1/vidA.opus" ≠ "tmp.opus") by done.
  assert (H3 : "vidA" ≠ "tmp.opus") by done.
  exact (X10_transcode_failure_exits out "one vidA" (Sample.entry "A" "vidA")
           "audio/chan1/vidA.opus" w (errorString "exit status 1") "raw"
           H1 H2 H3 eq_refl eq_refl eq_refl).
Defined.


(** ** A new entry, from discovery to the feed *)

Section PublishFacts.

Variable out : Outside.

(** Download, transcode, commit and clean up, all without error. *)
Lemma downloadEntry_commits (desc : string) (entry : YtEntry) (dst : string)
    (w : World) (opus : string) :
  let videoId := VideoId entry in
  let conv := convertRun out videoId "tmp.opus" (S (clock w)) in
  dst ≠ videoId -> dst ≠ "tmp.opus" ->
  cmdErr (downloadRun out videoId (clock w)) = None ->
  cmdErr conv = None -> cmdFile conv = Some opus ->
  renameFault out "tmp.opus" dst (S (S (clock w))) = None ->
  exists w',
    downloadEntry out desc entry dst w = Ret tt w'
    /\ fs w' !! dst = Some opus
    /\ fs w' !! videoId = None
    /\ fs w' !! "tmp.opus" = None
    /\ (forall p, p ≠ dst -> p ≠ videoId -> p ≠ "tmp.opus" -> fs w' !! p = fs w !! p)
    /\ trace w'
       = (trace w ++ [EvDownload videoId; EvTranscode videoId "tmp.opus";
                      EvRename "tmp.opus" dst; EvRemove videoId])%list
    /\ logged w'
       = (logged w ++ [("downloading " ++ desc)%string; (desc ++ " downloaded")%string;
                       ("recoding " ++ desc)%string; (desc ++ " recoded")%string])%list.
Proof.
  intros videoId conv Hdv Hdt Hdl Hcerr Hcfile Hren. subst conv.
  unfold downloadEntry, downloadAudio, recodeAudio, combinedOutput, osRename, osRemove.
  run. simpl. fold videoId. rewrite Hdl.
  set (fs1 := match cmdFile (downloadRun out videoId (clock w)) with
              | Some content => <[videoId := content]> (fs w)
              | None => fs w
              end).
  assert (Hfs1 : forall p, p ≠ videoId -> fs1 !! p = fs w !! p).
  { intros p Hp. unfold fs1.
    destruct (cmdFile (downloadRun out videoId (clock w))); [|done].
    by rewrite lookup_insert_ne. }
  assert (Hgoal : forall files : gmap string string,
            files !! dst = Some opus -> files !! "tmp.opus" = None ->
            (forall p, p ≠ dst -> p ≠ "tmp.opus" -> files !! p = fs1 !! p) ->
            delete videoId files !! dst = Some opus
            /\ delete videoId files !! videoId = None
            /\ delete videoId files !! "tmp.opus" = None
            /\ forall p, p ≠ dst -> p ≠ videoId -> p ≠ "tmp.opus" ->
                 delete videoId files !! p = fs w !! p).
  { intros files H1 H2 H3. split; [by rewrite lookup_delete_ne|].
    split; [by rewrite lookup_delete_eq|]. split.
    - destruct (decide (videoId = "tmp.opus")) as [->|Hne];
        [by rewrite lookup_delete_eq | by rewrite lookup_delete_ne].
    - intros p Hp1 Hp2 Hp3. by rewrite lookup_delete_ne, H3, Hfs1. }
  set (files := <[dst := opus]> (delete "tmp.opus" (<["tmp.opus" := opus]> fs1))).
  assert (Hfiles : files !! dst = Some opus /\ files !! "tmp.opus" = None
                   /\ forall p, p ≠ dst -> p ≠ "tmp.opus" -> files !! p = fs1 !! p).
  { unfold files. split; [by rewrite lookup_insert_eq|]. split.
    - by rewrite lookup_insert_ne, lookup_delete_eq.
    - intros p Hp1 Hp2. by rewrite lookup_insert_ne, lookup_delete_ne, lookup_insert_ne. }
  destruct Hfiles as (Hf1 & Hf2 & Hf3).
  destruct (Hgoal files Hf1 Hf2 Hf3) as (Hg1 & Hg2 & Hg3 & Hg4).
  assert (Hsame : files !! videoId = None -> delete videoId files = files)
    by apply delete_id.
  destruct (cmdFile (downloadRun out videoId (clock w))) as [raw|] eqn:Hraw; simpl;
    rewrite Hcerr, Hcfile; simpl; rewrite Hren, lookup_insert_eq; simpl;
    fold fs1; fold files.
  - destruct (files !! videoId) as [c|] eqn:Hfv; simpl.
    + eexists. split; [done|]. simpl. repeat (split; [done|]).
      by rewrite <- !app_assoc.
    + eexists. split; [done|]. simpl. rewrite <- (Hsame eq_refl).
      repeat (split; [done|]). by rewrite <- !app_assoc.
  - destruct (files !! videoId) as [c|] eqn:Hfv; simpl.
    + eexists. split; [done|]. simpl. repeat (split; [done|]).
      by rewrite <- !app_assoc.
    + eexists. split; [done|]. simpl. rewrite <- (Hsame eq_refl).
      repeat (split; [done|]). by rewrite <- !app_assoc.
Qed.

End PublishFacts.

Section PublishedFacts.

Variable out : Outside.
Variable feed : ConfFeed.
Variable entry : YtEntry.

Local Abbreviation videoId := (VideoId entry).
Local Abbreviation dst := (getAudioFileName (ChannelId feed) (VideoId entry)).
Local Abbreviation desc := (Name feed ++ " " ++ VideoId entry).

(** An entry that is not committed, ready, and for which every step
    works, from the existence check to the removal of the download. *)
Lemma updateEntry_publishes (w : World) (opus : string) :
  let t := clock w in
  let ready := probeRun out videoId (S t) in
  let conv := convertRun out videoId "tmp.opus" (S (S (S t))) in
  GoPath.plainName (ChannelId feed) = true -> GoPath.noSeparator videoId = true ->
  statFault out dst t = None -> fs w !! dst = None ->
  cmdErr ready = None ->
  occursIn "not_live" (cmdOut ready) \/ occursIn "was_live" (cmdOut ready) ->
  cmdErr (downloadRun out videoId (S (S t))) = None ->
  cmdErr conv = None -> cmdFile conv = Some opus ->
  renameFault out "tmp.opus" dst (S (S (S (S t)))) = None ->
  exists w',
    updateEntry out feed entry w = Ret tt w'
    /\ fs w' !! dst = Some opus
    /\ fs w' !! videoId = None
    /\ fs w' !! "tmp.opus" = None
    /\ (forall p, p ≠ dst -> p ≠ videoId -> p ≠ "tmp.opus" -> fs w' !! p = fs w !! p)
    /\ trace w'
       = (trace w ++ [EvStat dst; EvProbe videoId; EvDownload videoId;
                      EvTranscode videoId "tmp.opus"; EvRename "tmp.opus" dst;
                      EvRemove videoId])%list
    /\ logged w'
       = (logged w ++ [("found new video " ++ desc)%string;
                       ("downloading " ++ desc)%string; (desc ++ " downloaded")%string;
                       ("recoding " ++ desc)%string; (desc ++ " recoded")%string])%list.
Proof.
  intros t ready conv Hc Hv Hstat Hnone Hperr Hmarker Hdl Hcerr Hcfile Hren.
  pose proof (getAudioFileName_nested _ _ Hc Hv) as Hnested.
  assert (Hdv : dst ≠ videoId) by (intros Heq; rewrite Heq in Hnested; congruence).
  assert (Hdt : dst ≠ "tmp.opus") by (intros Heq; by rewrite Heq in Hnested).
  rewrite (updateEntry_stat_error out feed entry w None (PathErrNotExist "stat" dst)
             (osStat_missing out dst w Hstat Hnone)).
  set (w1 := afterCall (EvStat dst) w).
  set (w2 := withLog ("found new video " ++ desc) w1).
  set (w3 := afterCall (EvProbe videoId) w2).
  destruct (isVideoReady_run out videoId w2) as (b & Hrun & Hb).
  assert (b = true) as -> by (apply Hb; split; [exact Hperr | exact Hmarker]).
  rewrite (fetchEntry_gate out feed entry dst w1 true Hrun).
  destruct (downloadEntry_commits out desc entry dst w3 opus Hdv Hdt Hdl Hcerr Hcfile Hren)
    as (w' & Hcommit & Hf1 & Hf2 & Hf3 & Hf4 & Htrace & Hlog).
  exists w'. split; [exact Hcommit|]. repeat (split; [done|]). split.
  - rewrite Htrace. simpl. by rewrite <- !app_assoc.
  - rewrite Hlog. simpl. by rewrite <- !app_assoc.
Qed.

End PublishedFacts.

(** X11: a new entry is published.  For plain identifiers, when the
    artifact is not there, the probe is ready, and the download, the
    transcode and the rename succeed, the entry leaves the converter's
    output at the canonical path, no download file and no [tmp.opus];
    every other file is as before, and the six calls are made in the
    order check, probe, download, transcode, rename, remove. *)
Theorem X11_new_entry_is_published (out : Outside) (feed : ConfFeed) (entry : YtEntry)
    (w : World) (opus : string) :
  let videoId := VideoId entry in
  let dst := getAudioFileName (ChannelId feed) videoId in
  let t := clock w in
  let ready := probeRun out videoId (S t) in
  let conv := convertRun out videoId "tmp.opus" (S (S (S t))) in
  GoPath.plainName (ChannelId feed) = true -> GoPath.noSeparator videoId = true ->
  statFault out dst t = None -> fs w !! dst = None ->
  cmdErr ready = None ->
  occursIn "not_live" (cmdOut ready) \/ occursIn "was_live" (cmdOut ready) ->
  cmdErr (downloadRun out videoId (S (S t))) = None ->
  cmdErr conv = None -> cmdFile conv = Some opus ->
  renameFault out "tmp.opus" dst (S (S (S (S t)))) = None ->
  exists w',
    updateEntry out feed entry w = Ret tt w'
    /\ fs w' !! dst = Some opus
    /\ fs w' !! videoId = None
    /\ fs w' !! "tmp.opus" = None
    /\ (forall p, p ≠ dst -> p ≠ videoId -> p ≠ "tmp.opus" -> fs w' !! p = fs w !! p)
    /\ trace w'
       = (trace w ++ [EvStat dst; EvProbe videoId; EvDownload videoId;
                      EvTranscode videoId "tmp.opus"; EvRename "tmp.opus" dst;
                      EvRemove videoId])%list.
Proof.
  intros videoId dst t ready conv Hc Hv Hstat Hnone Hperr Hmarker Hdl Hcerr Hcfile Hren.
  destruct (updateEntry_publishes out feed entry w opus Hc Hv Hstat Hnone Hperr Hmarker
              Hdl Hcerr Hcfile Hren) as (w' & Hrun & H1 & H2 & H3 & H4 & H5 & _).
  exists w'. by repeat split.
Qed.

(** X11, witness: B of the sample feed, with A committed. *)
Lemma X11_new_entry_is_published_witness :
  let out := Sample.outside (Sample.net1 (Sample.ok "<feed>AB</feed>")) []
               (Sample.ran (Sample.line "not_live") None)
               (Sample.ran "" (Some "raw")) (Sample.ran "" (Some "opus")) in
  let w := Sample.world [("audio/chan1/vidA.opus", "a")] in
  exists w',
    updateEntry out (Sample.chan "one" "chan1") (Sample.entry "B" "vidB") w = Ret tt w'
    /\ fs w' !! "audio/chan1/vidB.opus" = Some "opus"
    /\ fs w' !! "vidB" = None
    /\ fs w' !! "tmp.opus" = None
    /\ (forall p, p ≠ "audio/chan1/vidB.opus" -> p ≠ "vidB" -> p ≠ "tmp.opus" ->
          fs w' !! p = fs w !! p)
    /\ trace w'
       = [EvStat "audio/chan1/vidB.opus"; EvProbe "vidB"; EvDownload "vidB";
          EvTranscode "vidB" "tmp.opus"; EvRename "tmp.opus" "audio/chan1/vidB.opus";
          EvRemove "vidB"].
Proof.
  intros out w.
  apply (X11_new_entry_is_published out (Sample.chan "one" "chan1")
           (Sample.entry "B" "vidB") w "opus"); try reflexivity.
  left. by exists "", (String "010" "").
Defined.



(** ** What a feed request does and what it lists *)

Section RequestHandlerFacts.

Variable lib : Lib.
Variable out : Outside.
Variable conf : Conf.

Lemma idle_osStat (name : string) (w : World) : steps idle (osStat out name) w.
Proof.
  unfold osStat.
  steps_go idle_refl idle_trans ltac:(apply idle_call; reflexivity).
Qed.

Lemma idle_publishEntry (feed : ConfFeed) (entry : YtEntry) (feedOut : Feed)
    (w : World) :
  steps idle (publishEntry lib out conf feed entry feedOut) w.
Proof.
  unfold publishEntry.
  apply (steps_bind _ idle_trans); [apply idle_osStat|].
  intros [info [e|]] w1 _ _; [by apply steps_ret, idle_refl|].
  destruct (timeParse lib (Published entry)); [apply idle_fatal|].
  destruct (Media entry); [by apply steps_ret, idle_refl | by apply steps_panic, idle_refl].
Qed.

Lemma idle_publishFeed (feed : ConfFeed) (feedOut : Feed) (w : World) :
  steps idle (publishFeed lib out conf feed feedOut) w.
Proof.
  unfold publishFeed.
  apply (steps_bind _ idle_trans); [apply idle_readFeed|].
  intros [data [e|]] w1 _ _.
  - apply (steps_bind _ idle_trans); [apply idle_log|].
    intros. by apply steps_ret, idle_refl.
  - apply (steps_bind _ idle_trans); [apply idle_parseFeed|].
    intros f w2 _ _. apply (steps_foldRange _ _ _ _ _ idle_refl idle_trans).
    intros e s w3 _ _. apply idle_publishEntry.
Qed.

Lemma idle_feedGetHandler (w : World) : steps idle (feedGetHandler lib out conf) w.
Proof.
  unfold feedGetHandler.
  apply (steps_bind _ idle_trans).
  - apply (steps_foldRange _ _ _ _ _ idle_refl idle_trans).
    intros feed s w1 _ _. apply idle_publishFeed.
  - intros feedOut w1 _ _.
    apply (steps_bind _ idle_trans); [by apply idle_call|].
    intros t w2 _ _. destruct (writeAtomErr out feedOut t); [apply idle_fatal|].
    by apply steps_ret, idle_refl.
Qed.

Lemma foldRange_ret_inv {A S} (I : S -> World -> Prop) (l : list A)
    (body : A -> S -> M S) (s s' : S) (w w' : World) :
  I s w ->
  (forall x s0 w0 s1 w1, x ∈ l -> I s0 w0 -> body x s0 w0 = Ret s1 w1 -> I s1 w1) ->
  foldRange l s body w = Ret s' w' -> I s' w'.
Proof.
  revert s w. induction l as [|x l IH]; intros s w Hinv Hbody Hrun; simpl in Hrun.
  - by injection Hrun as <- <-.
  - apply bind_ret_inv in Hrun as (s1 & w1 & Hx & Hrest).
    eapply IH; [| |exact Hrest].
    + eapply Hbody; [left | exact Hinv | exact Hx].
    + intros y s0 w0 s2 w2 Hy. apply Hbody. by right.
Qed.

(** What [os.Stat] reports without error: the length of a file that is
    there. *)
Lemma osStat_size_inv (name : string) (w w' : World) (info : option N) :
  osStat out name w = Ret (info, None) w' ->
  exists content,
    fs w !! name = Some content /\ info = Some (N.of_nat (String.length content))
    /\ w' = afterCall (EvStat name) w.
Proof.
  unfold osStat. run. simpl.
  destruct (statFault out name (clock w)); [by intros [=]|].
  destruct (fs w !! name) as [content|]; [|by intros [=]].
  intros [= <- <-]. by exists content.
Qed.

Lemma publishEntry_ret_inv (feed : ConfFeed) (entry : YtEntry) (feedOut feedOut' : Feed)
    (w w' : World) :
  publishEntry lib out conf feed entry feedOut w = Ret feedOut' w' ->
  w' = afterCall (EvStat (getAudioFileName (ChannelId feed) (VideoId entry))) w
  /\ (feedOut' = feedOut
      \/ exists item content,
           fs w !! getAudioFileName (ChannelId feed) (VideoId entry) = Some content
           /\ itemOf lib conf feed entry content item
           /\ FeedTitle feedOut' = FeedTitle feedOut
           /\ FeedLink feedOut' = FeedLink feedOut
           /\ Items feedOut' = (Items feedOut ++ [item])%list).
Proof.
  unfold publishEntry. intros Hrun.
  apply bind_ret_inv in Hrun as ([info err] & w1 & Hstat & Hrest).
  destruct err as [e|].
  - injection Hrest as <- <-. split; [|by left].
    revert Hstat. unfold osStat. run. simpl. by intros [= _ <-].
  - apply osStat_size_inv in Hstat as [content [Hfile [Hinfo Hw1]]]. subst info w1.
    destruct (timeParse lib (Published entry)) as [e|published] eqn:Htime; [done|].
    destruct (Media entry) as [media|] eqn:Hmedia; [|done].
    injection Hrest as <- <-. split; [done|]. right.
    eexists _, content. split; [done|]. split; [|done].
    unfold itemOf. simpl. repeat (split; [done|]). by exists media.
Qed.

Lemma publishFeed_listed (feed : ConfFeed) (files : gmap string string)
    (feedOut feedOut' : Feed) (w w' : World) :
  feed ∈ Feeds conf ->
  fs w = files /\ Forall (listed lib out conf files) (Items feedOut) ->
  publishFeed lib out conf feed feedOut w = Ret feedOut' w' ->
  fs w' = files /\ Forall (listed lib out conf files) (Items feedOut').
Proof.
  intros Hfeed [Hfs Hitems] Hrun. unfold publishFeed in Hrun.
  apply bind_ret_inv in Hrun as ([data err] & w1 & Hread & Hrest).
  pose proof (readFeed_ret_inv _ _ _ _ _ _ _ Hread) as Hw1.
  destruct err as [e|].
  - injection Hrest as <- <-. by subst w1.
  - apply bind_ret_inv in Hrest as (f & w2 & Hparse & Hfold).
    destruct (parseFeed_inv _ _ _ _ _ _ Hparse) as [-> _].
    revert Hfold.
    apply (foldRange_ret_inv
             (fun s w0 => fs w0 = files /\ Forall (listed lib out conf files) (Items s))).
    + by subst w1.
    + intros e s0 w0 s1 w3 He [Hfs0 Hitems0] Hentry.
      apply publishEntry_ret_inv in Hentry as [-> [-> | Hitem]]; [done|].
      destruct Hitem as (item & content & Hfile & Hitem & _ & _ & Hnew).
      split; [done|]. rewrite Hnew. apply Forall_app. split; [done|].
      apply Forall_singleton. exists feed, e, content.
      split; [done|]. split; [|by rewrite <- Hfs0].
      exact (polled_intro _ _ _ _ _ _ _ _ _ _ Hread Hparse He).
Qed.

End RequestHandlerFacts.

(** X13: serving a feed request changes no file and runs no tool,
    whether the handler returns, exits the process or panics. *)
Theorem X13_feed_request_is_read_only (lib : Lib) (out : Outside) (conf : Conf)
    (w : World) :
  let w' := finalWorld (feedGetHandler lib out conf w) in
  fs w' = fs w /\ invocations (trace w') = invocations (trace w).
Proof. apply idle_feedGetHandler. Qed.

(** X14: every item of a feed that the handler returns stands for an
    entry polled from a configured channel whose artifact is in the
    store: the item carries the entry's title, description and publish
    time (as created and updated), links to the artifact's URL, and its
    enclosure has type [audio/opus] and the artifact's byte length. *)
Theorem X14_items_have_artifacts (lib : Lib) (out : Outside) (conf : Conf)
    (w w' : World) (feedOut : Feed) :
  feedGetHandler lib out conf w = Ret feedOut w' ->
  FeedTitle feedOut = "low-fi podcast"
  /\ fs w' = fs w
  /\ Forall (listed lib out conf (fs w)) (Items feedOut).
Proof.
  intros Hrun. unfold feedGetHandler in Hrun.
  apply bind_ret_inv in Hrun as (f1 & w1 & Hfold & Hrest).
  apply bind_ret_inv in Hrest as (t & w2 & Hcall & Hwrite).
  injection Hcall as <- <-.
  destruct (writeAtomErr out f1 (clock w1)); [done|]. injection Hwrite as <- <-.
  assert (Hinv : (fs w1 = fs w /\ Forall (listed lib out conf (fs w)) (Items f1))
                 /\ FeedTitle f1 = "low-fi podcast").
  { revert Hfold.
    apply (foldRange_ret_inv
             (fun s w0 => (fs w0 = fs w /\ Forall (listed lib out conf (fs w)) (Items s))
                          /\ FeedTitle s = "low-fi podcast")).
    - by repeat split.
    - intros feed s0 w0 s1 w3 Hfeed [Hinv Htitle] Hpub. split.
      + by eapply publishFeed_listed.
      + clear Hinv. unfold publishFeed in Hpub.
        apply bind_ret_inv in Hpub as ([data err] & w4 & _ & Hrest).
        destruct err as [e|]; [by injection Hrest as <- _|].
        apply bind_ret_inv in Hrest as (f & w5 & _ & Hfold').
        revert Hfold'. apply (foldRange_ret_inv (fun s _ => FeedTitle s = "low-fi podcast"));
          [done|].
        intros e s2 w6 s3 w7 _ Hs2 Hentry.
        apply publishEntry_ret_inv in Hentry as [_ [-> | Hitem]]; [done|].
        destruct Hitem as (_ & _ & _ & _ & -> & _). done. }
  destruct Hinv as [[Hfs Hitems] Htitle]. done.
Qed.

(** X14, witness: of the two sample entries only A has an artifact. *)
Lemma X14_items_have_artifacts_witness :
  let lib := Sample.lib [("<feed>AB</feed>", Sample.feedAB)] in
  let out := Sample.outside (Sample.net1 (Sample.ok "<feed>AB</feed>")) []
               (Sample.ran (Sample.line "not_live") None)
               (Sample.ran "" (Some "raw")) (Sample.ran "" (Some "opus")) in
  let conf := Sample.conf [Sample.chan "one" "chan1"; Sample.chan "two" "chan2"] in
  let w := Sample.world [("audio/chan1/vidA.opus", "opus")] in
  match feedGetHandler lib out conf w with
  | Ret feedOut w' =>
      length (Items feedOut) = 1
      /\ FeedTitle feedOut = "low-fi podcast"
      /\ fs w' = fs w
      /\ Forall (listed lib out conf (fs w)) (Items feedOut)
  | _ => False
  end.
Proof.
  intros lib out conf w.
  destruct (feedGetHandler lib out conf w) as [feedOut w'|w'|w'] eqn:Hrun.
  - split.
    + by vm_compute in Hrun; injection Hrun as <- _.
    + exact (X14_items_have_artifacts lib out conf w w' feedOut Hrun).
  - by vm_compute in Hrun.
  - by vm_compute in Hrun.
Defined.

(** ** Start-up *)

Section StartupFacts.

Variable boot : Boot.

Lemma checkExecs_usable (execs : list string) (w : World) :
  forallb (usable boot) execs = true ->
  checkExecs boot execs w
  = Ret (map (fun name => if foundHere boot name then "./" ++ name else name) execs)
      {| fs := fs w;
         logged := logged w
                   ++ map (fun name => name ++ " executable found in current directory")
                        (List.filter (foundHere boot) execs);
         trace := trace w; clock := clock w |}.
Proof.
  revert w. induction execs as [|name execs IH]; intros w Hall; simpl.
  - rewrite app_nil_r. by destruct w.
  - simpl in Hall. apply andb_true_iff in Hall as [Hname Hrest].
    unfold usable in Hname. unfold foundHere at 1 3.
    destruct (lookPath boot name) as [[| |e]|] eqn:Hlook; try done.
    + run. simpl.
      change (checkExecs boot execs ?w0) with (checkExecs boot execs w0).
      rewrite IH by done. simpl. by rewrite <- app_assoc.
    + run. simpl. by rewrite IH.
Qed.

Lemma checkExecs_unusable (pre post : list string) (name : string) (w : World) :
  forallb (usable boot) pre = true -> usable boot name = false ->
  checkExecs boot (pre ++ name :: post) w
  = Exit {| fs := fs w;
            logged := (logged w
                       ++ map (fun n => n ++ " executable found in current directory")
                            (List.filter (foundHere boot) pre))
                      ++ [match lookPath boot name with
                          | Some (ErrLook e) => Error e
                          | _ => name ++ " executable not found"
                          end];
            trace := trace w; clock := clock w |}.
Proof.
  revert w. induction pre as [|name' pre IH]; intros w Hpre Hname; simpl.
  - unfold usable in Hname. rewrite app_nil_r.
    destruct (lookPath boot name) as [[| |e]|] eqn:Hlook; done.
  - simpl in Hpre. apply andb_true_iff in Hpre as [Hname' Hpre].
    unfold usable in Hname'. unfold foundHere at 1.
    destruct (lookPath boot name') as [[| |e]|] eqn:Hlook; try done.
    + run. simpl.
      change (checkExecs boot (pre ++ name :: post) ?w0)
        with (checkExecs boot (pre ++ name :: post) w0).
      rewrite IH by done. simpl. by rewrite <- !app_assoc.
    + run. simpl. by rewrite IH.
Qed.

Lemma checkExecs_returned (execs : list string) (w : World) :
  returned (checkExecs boot execs w) = forallb (usable boot) execs.
Proof.
  destruct (forallb (usable boot) execs) eqn:Hall.
  - by rewrite checkExecs_usable.
  - assert (Hsplit : exists pre name post,
              execs = (pre ++ name :: post)%list
              /\ forallb (usable boot) pre = true /\ usable boot name = false).
    { clear w. induction execs as [|name execs IH]; [done|]. simpl in Hall.
      destruct (usable boot name) eqn:Hname.
      - destruct (IH Hall) as (pre & n & post & -> & Hpre & Hn).
        exists (name :: pre), n, post. simpl. by rewrite Hname, Hpre.
      - by exists [], name, execs. }
    destruct Hsplit as (pre & name & post & -> & Hpre & Hname).
    by rewrite checkExecs_unusable.
Qed.

Lemma mkdirs_made (feeds : list ConfFeed) (made : list string) (w : World) :
  Forall (fun feed => mkdirAll boot (channelDir (ChannelId feed)) = None) feeds ->
  foldRange feeds made
    (fun feed (made : list string) =>
       match mkdirAll boot (channelDir (ChannelId feed)) with
       | Some err => logFatal (Error err)
       | None => mret (made ++ [channelDir (ChannelId feed)])%list
       end) w
  = Ret (made ++ map (fun feed => channelDir (ChannelId feed)) feeds)%list w.
Proof.
  revert made. induction feeds as [|feed feeds IH]; intros made Hall; simpl.
  - by rewrite app_nil_r.
  - apply Forall_cons in Hall as [Hfeed Hall]. rewrite Hfeed. run.
    change (foldRange feeds ?s ?b w) with (foldRange feeds s b w).
    rewrite IH by done. by rewrite <- app_assoc.
Qed.

Lemma mkdirs_returned (feeds : list ConfFeed) (made dirs : list string) (w w' : World) :
  foldRange feeds made
    (fun feed (made : list string) =>
       match mkdirAll boot (channelDir (ChannelId feed)) with
       | Some err => logFatal (Error err)
       | None => mret (made ++ [channelDir (ChannelId feed)])%list
       end) w
  = Ret dirs w' ->
  Forall (fun feed => mkdirAll boot (channelDir (ChannelId feed)) = None) feeds.
Proof.
  revert made. induction feeds as [|feed feeds IH]; intros made Hrun; simpl in *.
  - constructor.
  - unfold mbind, M_bind, bind in Hrun.
    destruct (mkdirAll boot (channelDir (ChannelId feed))) as [err|] eqn:Hfeed;
      [by unfold logFatal in Hrun|].
    unfold mret, M_ret, ret in Hrun.
    constructor; [done|]. by eapply IH.
Qed.

End StartupFacts.

(** X15: [checkExecs] returns exactly when every executable is found,
    on the search path or in the working directory.  Then a name found
    on the search path is kept, a name found in the working directory
    only gets the prefix [./] and one log line, and nothing else
    changes.  Otherwise the process exits at the first executable that
    is not found, after the log lines of the names before it, and with a
    last line that names it. *)
Theorem X15_checkExecs (boot : Boot) (execs : list string) (w : World) :
  let here name := (name ++ " executable found in current directory")%string in
  (forallb (usable boot) execs = true ->
   checkExecs boot execs w
   = Ret (map (fun name => if foundHere boot name then "./" ++ name else name) execs)
       {| fs := fs w;
          logged := logged w ++ map here (List.filter (foundHere boot) execs);
          trace := trace w; clock := clock w |})
  /\ (forall pre name post,
        execs = (pre ++ name :: post)%list ->
        forallb (usable boot) pre = true -> usable boot name = false ->
        checkExecs boot execs w
        = Exit {| fs := fs w;
                  logged := (logged w ++ map here (List.filter (foundHere boot) pre))
                            ++ [match lookPath boot name with
                                | Some (ErrLook e) => Error e
                                | _ => (name ++ " executable not found")%string
                                end];
                  trace := trace w; clock := clock w |})
  /\ (returned (checkExecs boot execs w) = forallb (usable boot) execs).
Proof.
  intros here. split; [apply checkExecs_usable|]. split.
  - intros pre name post ->. apply checkExecs_unusable.
  - apply checkExecs_returned.
Qed.

(** X15, witness: the converter is found in the working directory
    only. *)
Lemma X15_checkExecs_witness :
  let boot := {| lookPath := fun name =>
                   if String.eqb name "ffmpeg" then Some ErrDot else None;
                 osOpen := fun name => inl (PathErrNotExist "open" name);
                 jsonDecode := fun _ => inr [];
                 mkdirAll := fun _ => None |} in
  checkExecs boot [downloader; converter; probe] (Sample.world [])
  = Ret ["yt-dlp"; "./ffmpeg"; "ffprobe"]
      {| fs := ∅; logged := ["ffmpeg executable found in current directory"];
         trace := []; clock := 0 |}.
Proof.
  intros boot.
  exact (proj1 (X15_checkExecs boot [downloader; converter; probe] (Sample.world []))
           eq_refl).
Defined.

(** X16: start-up returns exactly when the configuration file opens and
    decodes, the three tools are found and the directory of every channel
    can be made.  Then the configuration holds the channels decoded and
    the server address given, a tool found in the working directory only
    is run from there, the directories made are those of the channels in
    the order of the configuration, and the only lines logged are those
    about tools in the working directory. *)
Theorem X16_startup (boot : Boot) (confFeedsFile serverAddress : string) (w w' : World)
    (conf : Conf) (tools dirs : list string) :
  let names := [downloader; converter; probe] in
  mainInit boot confFeedsFile serverAddress w = Ret (conf, tools, dirs) w'
  <-> (exists content,
         osOpen boot confFeedsFile = inr content
         /\ jsonDecode boot content = inr (Feeds conf))
      /\ ServerAddress conf = serverAddress
      /\ forallb (usable boot) names = true
      /\ tools = map (fun name => if foundHere boot name then "./" ++ name else name) names
      /\ Forall (fun feed => mkdirAll boot (channelDir (ChannelId feed)) = None) (Feeds conf)
      /\ dirs = map (fun feed => channelDir (ChannelId feed)) (Feeds conf)
      /\ w' = {| fs := fs w;
                 logged := logged w
                           ++ map (fun name => name ++ " executable found in current directory")
                                (List.filter (foundHere boot) names);
                 trace := trace w; clock := clock w |}.
Proof.
  intros names. unfold mainInit, readConfFeeds. split.
  - destruct (osOpen boot confFeedsFile) as [err|content] eqn:Hopen; [done|].
    destruct (jsonDecode boot content) as [err|feeds] eqn:Hdecode; [done|].
    intros Hrun.
    rewrite (bind_ret _ _ w feeds w eq_refl) in Hrun.
    pose proof (checkExecs_returned boot names w) as Hret. fold names in Hrun.
    destruct (forallb (usable boot) names) eqn:Husable.
    + rewrite (bind_ret _ _ _ _ _ (checkExecs_usable boot names w Husable)) in Hrun.
      match type of Hrun with
      | (?m ≫= _) ?w0 = _ => destruct (m w0) as [dirs0 w0'| |] eqn:Hdirs
      end.
      * rewrite (bind_ret _ _ _ _ _ Hdirs) in Hrun.
        pose proof (mkdirs_returned boot _ _ _ _ _ Hdirs) as Hmade. simpl in Hmade.
        rewrite (mkdirs_made boot _ _ _ Hmade) in Hdirs. simpl in Hdirs.
        injection Hdirs as <- <-. injection Hrun as <- <- <- <-. simpl.
        split; [by exists content|]. done.
      * by rewrite (bind_exit _ _ _ _ Hdirs) in Hrun.
      * unfold mbind, M_bind, bind in Hrun. by rewrite Hdirs in Hrun.
    + unfold mbind, M_bind, bind in Hrun.
      destruct (checkExecs boot names w); done.
  - intros ((content & Hopen & Hdecode) & Haddr & Husable & -> & Hmade & -> & ->).
    rewrite Hopen, Hdecode.
    rewrite (bind_ret _ _ w (Feeds conf) w eq_refl). fold names.
    rewrite (bind_ret _ _ _ _ _ (checkExecs_usable boot names w Husable)).
    simpl Feeds.
    rewrite (bind_ret _ _ _ _ _ (mkdirs_made boot _ [] _ Hmade)).
    simpl. destruct conf; simpl in *. by subst.
Qed.

(** X16, witness: two channels, the converter in the working
    directory. *)
Lemma X16_startup_witness :
  let boot := {| lookPath := fun name =>
                   if String.eqb name "ffmpeg" then Some ErrDot else None;
                 osOpen := fun name =>
                   if String.eqb name "ytfeeds.json" then inr "{...}"
                   else inl (PathErrNotExist "open" name);
                 jsonDecode := fun _ =>
                   inr [Sample.chan "one" "chan1"; Sample.chan "two" "chan2"];
                 mkdirAll := fun _ => None |} in
  mainInit boot "ytfeeds.json" "127.0.0.1:8080" (Sample.world [])
  = Ret (Sample.conf [Sample.chan "one" "chan1"; Sample.chan "two" "chan2"],
         ["yt-dlp"; "./ffmpeg"; "ffprobe"], ["audio/chan1"; "audio/chan2"])
      {| fs := ∅; logged := ["ffmpeg executable found in current directory"];
         trace := []; clock := 0 |}.
Proof.
  intros boot.
  apply (proj2 (X16_startup boot "ytfeeds.json" "127.0.0.1:8080" (Sample.world []) _
                  (Sample.conf [Sample.chan "one" "chan1"; Sample.chan "two" "chan2"])
                  _ _)).
  split; [by exists "{...}"|].
  repeat split; try reflexivity.
  by repeat constructor.
Defined.

(** ** The store's directories *)

Section DirectoryFacts.

Import GoPath.

Lemma channelDir_plain (channelId : string) :
  plainName channelId = true -> channelDir channelId = "audio/" ++ channelId.
Proof.
  unfold plainName. rewrite !andb_true_iff, !negb_true_iff.
  intros [[[Hc Hc0] Hc1] Hc2].
  unfold channelDir, Join, Clean. simpl.
  rewrite (elements_plain _ Hc).
  unfold cleanStep; simpl. rewrite Hc0, Hc1, Hc2. simpl.
  destruct channelId; [done|simpl; done].
Qed.

Lemma file_not_dot (videoId s : string) :
  String.length s < 5 -> String.eqb (videoId ++ ".opus") s = false.
Proof. intros Hs. apply not_short. simpl. lia. Qed.

End DirectoryFacts.

(** X17: for a channel identifier that is a plain name and a video
    identifier without a path separator, the artifact lies directly in
    the directory that start-up makes for the channel, under the video
    identifier with the extension [opus]; the directory is
    [audio/<channelId>]. *)
Theorem X17_artifact_in_channel_directory (channelId videoId : string) :
  GoPath.plainName channelId = true -> GoPath.noSeparator videoId = true ->
  channelDir channelId = "audio/" ++ channelId
  /\ getAudioFileName channelId videoId = channelDir channelId ++ "/" ++ videoId ++ ".opus"
  /\ GoPath.elements (getAudioFileName channelId videoId)
     = (GoPath.elements (channelDir channelId) ++ [(videoId ++ ".opus")%string])%list.
Proof.
  intros Hc Hv.
  assert (Hn : GoPath.noSeparator channelId = true).
  { revert Hc. unfold GoPath.plainName. rewrite !andb_true_iff. tauto. }
  rewrite (channelDir_plain _ Hc), (getAudioFileName_plain _ _ Hc Hv).
  split; [done|]. split.
  - by simpl.
  - simpl. rewrite (elements_cons channelId) by done.
    rewrite !elements_plain; [done..|].
    rewrite noSeparator_app, Hv. done.
Qed.

(** X17, witness: a video of the channel chan1. *)
Lemma X17_artifact_in_channel_directory_witness :
  channelDir "chan1" = "audio/chan1"
  /\ getAudioFileName "chan1" "vidA" = channelDir "chan1" ++ "/" ++ "vidA" ++ ".opus"
  /\ GoPath.elements (getAudioFileName "chan1" "vidA")
     = (GoPath.elements (channelDir "chan1") ++ [("vidA" ++ ".opus")%string])%list.
Proof. exact (X17_artifact_in_channel_directory "chan1" "vidA" eq_refl eq_refl). Defined.

(** X18: the channel identifiers that are no plain names.  The empty
    identifier and [.] both name the directory [audio] itself, so the
    two channels share their artifacts with each other; the identifier
    [..] names the working directory, where the artifact of a video lies
    beside the downloads and the converter's temporary file. *)
Theorem X18_dot_channels (videoId : string) :
  GoPath.noSeparator videoId = true ->
  (channelDir "" = "audio" /\ channelDir "." = "audio" /\ channelDir ".." = ".")
  /\ getAudioFileName "" videoId = "audio/" ++ videoId ++ ".opus"
  /\ getAudioFileName "." videoId = "audio/" ++ videoId ++ ".opus"
  /\ getAudioFileName ".." videoId = videoId ++ ".opus".
Proof.
  intros Hv. split; [done|].
  assert (Hvo : GoPath.noSeparator (videoId ++ ".opus") = true)
    by (rewrite noSeparator_app, Hv; reflexivity).
  assert (Hlen : forall s, String.length s < 5 -> String.eqb (videoId ++ ".opus") s = false)
    by apply file_not_dot.
  unfold getAudioFileName, GoPath.Join, GoPath.Clean. simpl.
  rewrite (elements_plain _ Hvo).
  unfold GoPath.cleanStep; simpl.
  rewrite !(Hlen "") , !(Hlen "."), !(Hlen "..") by (simpl; lia). simpl.
  by rewrite (Hlen "") by (simpl; lia).
Qed.

(** X18, witness: the video vidA in each of the three channels. *)
Lemma X18_dot_channels_witness :
  (channelDir "" = "audio" /\ channelDir "." = "audio" /\ channelDir ".." = ".")
  /\ getAudioFileName "" "vidA" = "audio/" ++ "vidA" ++ ".opus"
  /\ getAudioFileName "." "vidA" = "audio/" ++ "vidA" ++ ".opus"
  /\ getAudioFileName ".." "vidA" = "vidA" ++ ".opus".
Proof. exact (X18_dot_channels "vidA" eq_refl). Defined.

(** ** Any number of sweeps *)

Section Rounds.

Variable lib : Lib.
Variable out : Outside.
Variable conf : Conf.

Lemma steps_updateFeeds (R : World -> World -> Prop) (rounds : nat) (w : World) :
  (forall w0, R w0 w0) -> (forall a b c, R a b -> R b c -> R a c) ->
  (forall w', R w w' -> steps R (doUpdate lib out conf) w') ->
  steps R (updateFeeds lib out rounds conf) w.
Proof.
  intros Hrefl Htrans. revert w.
  induction rounds as [|rounds IH]; intros w Hsweep; simpl.
  - apply Hrefl.
  - apply (steps_bind _ Htrans); [by apply Hsweep|].
    intros _ w' _ Hw'. apply IH. intros w'' Hw''. apply Hsweep. by eapply Htrans.
Qed.

End Rounds.


